(** * Shallow embedding of the licence-plate OCR route
      (src/backend/routes/ocr.py): plate validation and candidate scoring,
      the temporal voting buffers, the plate-region crop, the two-stage
      OCR pipeline and the [/ocr/plate-base64] endpoint.

    Modelling conventions.
    - Python [str] values are Rocq [string]s; the model treats text as
      ASCII: [upper], [isalpha], [isdigit], [isalnum], [isspace] and the
      regex classes [\d], [\s] are their ASCII restrictions.
    - Python floats (engine confidences, scores, vote percentages,
      padding fractions) are exact rationals [Q]; [int(x)] on a float is
      truncation toward zero ([Z.quot]).
    - The external engines (base64/PIL decoding, Gemini, EasyOCR) are
      the fields of an environment record [env]; every theorem about the
      endpoint quantifies over all environments.
    - The module-level dictionary [_temporal_votes] is a [gmap] from
      track ids to lists; the state also records the engine calls made. *)

From Stdlib Require Import String Ascii List ZArith QArith Lia.
From stdpp Require Import base gmap strings list.
Import ListNotations.
Open Scope string_scope.
Open Scope list_scope.

(* ================================================================== *)
(** ** Characters and Python string methods (ASCII) *)

Definition code (c : ascii) : nat := nat_of_ascii c.

Definition is_upper (c : ascii) : bool := (65 <=? code c)%nat && (code c <=? 90)%nat.
Definition is_lower (c : ascii) : bool := (97 <=? code c)%nat && (code c <=? 122)%nat.

(** [str.isalpha], [str.isdigit], [str.isalnum], [str.isspace] *)
Definition isalpha (c : ascii) : bool := is_upper c || is_lower c.
Definition isdigit (c : ascii) : bool := (48 <=? code c)%nat && (code c <=? 57)%nat.
Definition isalnum (c : ascii) : bool := isalpha c || isdigit c.
Definition isspace (c : ascii) : bool :=
  ((9 <=? code c)%nat && (code c <=? 13)%nat)
  || ((28 <=? code c)%nat && (code c <=? 32)%nat).

Definition upper_char (c : ascii) : ascii :=
  if is_lower c then ascii_of_nat (code c - 32) else c.

(** [str.upper] *)
Fixpoint upper (s : string) : string :=
  match s with
  | EmptyString => EmptyString
  | String c s' => String (upper_char c) (upper s')
  end.

(** [''.join(c for c in s if p(c))] *)
Fixpoint str_filter (p : ascii -> bool) (s : string) : string :=
  match s with
  | EmptyString => EmptyString
  | String c s' => if p c then String c (str_filter p s') else str_filter p s'
  end.

(** [s.replace(ch, '')] for a one-character [ch] *)
Definition remove_char (ch : ascii) (s : string) : string :=
  str_filter (fun c => negb (Ascii.eqb c ch)) s.

(** [s.strip()] *)
Fixpoint lstrip (s : string) : string :=
  match s with
  | String c s' => if isspace c then lstrip s' else s
  | EmptyString => EmptyString
  end.

Definition strip (s : string) : string :=
  string_of_list_ascii (rev (list_ascii_of_string
    (lstrip (string_of_list_ascii (rev (list_ascii_of_string (lstrip s))))))).

(** [sub in s] for strings *)
Fixpoint contains (sub s : string) : bool :=
  String.prefix sub s ||
  match s with
  | EmptyString => false
  | String _ s' => contains sub s'
  end.

(** [s[:2]] *)
Definition first2 (s : string) : string := substring 0 2 s.

(* ================================================================== *)
(** ** A backtracking matcher for the anchored regular expressions used
    with [re.match] (sequences of bounded repetitions of a class,
    followed by [$]). *)

Record rep := Rep { rep_cls : ascii -> bool; rep_lo : nat; rep_hi : option nat }.

(** Python's [$] without MULTILINE: end of the string, or just before a
    final newline. *)
Definition at_end (s : list ascii) : bool :=
  match s with
  | [] => true
  | [c] => Ascii.eqb c "010"%char
  | _ => false
  end.

(** [c{lo,hi}] followed by the continuation [k] *)
Fixpoint match_rep (c : ascii -> bool) (lo : nat) (hi : option nat)
    (s : list ascii) (k : list ascii -> bool) : bool :=
  (Nat.eqb lo 0 && k s) ||
  match s with
  | [] => false
  | a :: s' =>
      c a && negb (match hi with Some 0 => true | _ => false end)
      && match_rep c (pred lo) (option_map pred hi) s' k
  end.

Fixpoint match_seq (rs : list rep) (s : list ascii) : bool :=
  match rs with
  | [] => at_end s
  | r :: rs' => match_rep (rep_cls r) (rep_lo r) (rep_hi r) s (match_seq rs')
  end.

(** [re.match(pattern, s)] for a pattern [^r1 r2 ... $] *)
Definition re_match (rs : list rep) (s : string) : bool :=
  match_seq rs (list_ascii_of_string s).

Definition AZ : ascii -> bool := is_upper.
Definition lit (c : ascii) : rep := Rep (fun a => Ascii.eqb a c) 1 (Some 1).
Definition lits (w : string) : list rep := map lit (list_ascii_of_string w).

(* ================================================================== *)
(** ** [is_indian_plate] *)

Definition indian_patterns : list (list rep) :=
  [ (* ^[A-Z]{2}\d{2}[A-Z]{1,3}\d{1,4}$ *)
    [Rep AZ 2 (Some 2); Rep isdigit 2 (Some 2); Rep AZ 1 (Some 3); Rep isdigit 1 (Some 4)];
    (* ^[A-Z]{2}\d{2}[A-Z]{2}\d{4}$ *)
    [Rep AZ 2 (Some 2); Rep isdigit 2 (Some 2); Rep AZ 2 (Some 2); Rep isdigit 4 (Some 4)];
    (* ^[A-Z]{2}\s?\d{2}\s?[A-Z]{1,3}\s?\d{1,4}$ *)
    [Rep AZ 2 (Some 2); Rep isspace 0 (Some 1); Rep isdigit 2 (Some 2);
     Rep isspace 0 (Some 1); Rep AZ 1 (Some 3); Rep isspace 0 (Some 1);
     Rep isdigit 1 (Some 4)];
    (* ^[A-Z]{2}\d{1,2}[A-Z]{1,3}\d{1,4}$ *)
    [Rep AZ 2 (Some 2); Rep isdigit 1 (Some 2); Rep AZ 1 (Some 3); Rep isdigit 1 (Some 4)] ].

(** [text.upper().replace(' ', '').replace('-', '')] *)
Definition normalize (text : string) : string :=
  remove_char "-" (remove_char " " (upper text)).

Definition validator_state_codes : list string :=
  ["MH"; "DL"; "KA"; "TN"; "AP"; "TS"; "UP"; "RJ"; "GJ"; "MP";
   "WB"; "PB"; "HR"; "UK"; "JH"; "BR"; "OR"; "CG"; "AS"; "KL"; "GA"; "HP"].

Definition str_mem (x : string) (l : list string) : bool :=
  existsb (String.eqb x) l.

Definition str_any (p : ascii -> bool) (s : string) : bool :=
  existsb p (list_ascii_of_string s).

Definition is_indian_plate (text : string) : bool :=
  let cleaned := normalize text in
  existsb (fun pat => re_match pat cleaned) indian_patterns
  || ((6 <=? String.length cleaned)%nat
      && str_mem (first2 cleaned) validator_state_codes
      && str_any isdigit cleaned).

(* ================================================================== *)
(** ** [score_plate_candidate], written step by step as in the source *)

Definition scorer_state_codes : list string :=
  ["MH"; "DL"; "KA"; "TN"; "AP"; "TS"; "UP"; "RJ"; "GJ"; "MP"; "WB"; "PB"; "HR"].

Definition bad_words : list string :=
  ["PHONE"; "CELL"; "BATTERY"; "WIFI"; "SUZUKI"; "MARUTI"; "HONDA";
   "TOYOTA"; "DIESEL"; "PETROL"; "INDIA"; "CAR"; "TRUCK"; "BUS";
   "PERSON"; "VEHICLE"; "READING"; "PLATE"].

(** [^(CAR|TRUCK|BUS|VEHICLE)\d+$] *)
Definition track_id_patterns : list (list rep) :=
  map (fun w => app (lits w) [Rep isdigit 1 None]) ["CAR"; "TRUCK"; "BUS"; "VEHICLE"].

(** Lines 104-123: the bonuses, starting from [score = 0]. *)
Definition score_bonuses (cleaned : string) : Z :=
  let n := String.length cleaned in
  let s0 := 0%Z in
  let s1 := if (9 <=? n)%nat && (n <=? 11)%nat then (s0 + 30)%Z
            else if (6 <=? n)%nat && (n <=? 12)%nat then (s0 + 15)%Z else s0 in
  let s2 := if str_any isalpha cleaned && str_any isdigit cleaned
            then (s1 + 30)%Z else s1 in
  let s3 := if is_indian_plate cleaned then (s2 + 50)%Z else s2 in
  let s4 := if (2 <=? n)%nat && str_mem (first2 cleaned) scorer_state_codes
            then (s3 + 40)%Z else s3 in
  s4.

(** Lines 125-131: [for word in bad_words: if word in cleaned: score -= 100] *)
Definition bad_word_step (cleaned : string) (score : Z) : Z :=
  fold_left (fun sc w => if contains w cleaned then (sc - 100)%Z else sc) bad_words score.

(** Lines 133-135 *)
Definition track_id_step (cleaned : string) (score : Z) : Z :=
  if existsb (fun pat => re_match pat cleaned) track_id_patterns
  then (score - 100)%Z else score.

Definition score_plate_candidate (text : string) : Z :=
  let cleaned := normalize text in
  if (String.length cleaned <? 6)%nat then (-50)%Z
  else track_id_step cleaned (bad_word_step cleaned (score_bonuses cleaned)).


(* ================================================================== *)
(** ** Temporal voting ([_temporal_votes], lines 33-175) *)

Definition TEMPORAL_WINDOW : nat := 10.

(** The module-level [defaultdict(list)]. *)
Abbreviation votes_store := (gmap string (list string)).

(** [_temporal_votes.get(track_id, [])] *)
Definition votes_of (st : votes_store) (tid : string) : list string :=
  default [] (st !! tid).

(** [l[-n:]] for a list longer than [n] *)
Definition last_n (n : nat) (l : list string) : list string :=
  skipn (length l - n) l.

(** [add_temporal_vote]: append, then keep the last [TEMPORAL_WINDOW]
    entries; an empty text is not recorded. *)
Definition add_temporal_vote (st : votes_store) (tid plate_text : string) : votes_store :=
  if String.eqb plate_text "" then st
  else
    let l := app (votes_of st tid) [plate_text] in
    <[tid := if (TEMPORAL_WINDOW <? length l)%nat then last_n TEMPORAL_WINDOW l else l]> st.

(** [collections.Counter(votes)]: items in first-insertion order. *)
Fixpoint counter_add (c : list (string * nat)) (s : string) : list (string * nat) :=
  match c with
  | [] => [(s, 1%nat)]
  | (k, n) :: c' => if String.eqb k s then (k, S n) :: c' else (k, n) :: counter_add c' s
  end.

Definition counter (votes : list string) : list (string * nat) :=
  fold_left counter_add votes [].

(** [max(items, key=itemgetter(1))]: the first item is kept unless a
    later one has a strictly larger count. *)
Fixpoint max_by_count (best : string * nat) (items : list (string * nat)) : string * nat :=
  match items with
  | [] => best
  | it :: items' => max_by_count (if (snd best <? snd it)%nat then it else best) items'
  end.

(** [counts.most_common(1)] ([heapq.nlargest] with [n = 1] calls [max]). *)
Definition most_common1 (c : list (string * nat)) : option (string * nat) :=
  match c with
  | [] => None
  | it :: c' => Some (max_by_count it c')
  end.

(** [get_consensus_plate]: [(None, 0)] on an empty buffer, otherwise the
    most common reading and [(vote_count / len(votes)) * 100]. *)
Definition get_consensus_plate (st : votes_store) (tid : string) : option string * Q :=
  let votes := votes_of st tid in
  match votes with
  | [] => (None, 0%Q)
  | _ =>
      match most_common1 (counter votes) with
      | None => (None, 0%Q)
      | Some (plate_text, vote_count) =>
          (Some plate_text,
           ((inject_Z (Z.of_nat vote_count) / inject_Z (Z.of_nat (length votes))) * 100)%Q)
      end
  end.

(** [clear_temporal_votes] *)
Definition clear_temporal_votes (st : votes_store) (tid : option string) : votes_store :=
  match tid with
  | Some t => if String.eqb t "" then ∅ else delete t st
  | None => ∅
  end.

(** Position of the first occurrence ([list.index]; [length] if absent). *)
Fixpoint index_of (s : string) (l : list string) : nat :=
  match l with
  | [] => 0%nat
  | x :: l' => if String.eqb x s then 0%nat else S (index_of s l')
  end.

Definition count_of (s : string) (l : list string) : nat :=
  length (List.filter (fun x => String.eqb x s) l).



(* ================================================================== *)
(** ** Plate region and crop (lines 182-222) *)

(** A decoded image: its [shape[:2]] and an opaque content tag. *)
Record image := Image { img_h : Z; img_w : Z; img_data : string }.

Record region := Region { rx : Z; ry : Z; rwidth : Z; rheight : Z }.

(** Python [int(x)] on a float: truncation toward zero. *)
Definition py_int (q : Q) : Z := Z.quot (Qnum q) (Zpos (Qden q)).

(** [detect_plate_region_heuristic] *)
Definition detect_plate_region_heuristic (img : image) : region :=
  {| rx := py_int (inject_Z (img_w img) * (15 # 100));
     ry := py_int (inject_Z (img_h img) * (25 # 100));
     rwidth := py_int (inject_Z (img_w img) * (7 # 10));
     rheight := py_int (inject_Z (img_h img) * (5 # 10)) |}.

(** The slice bounds [(y1, y2, x1, x2)] computed by [crop_plate_region]. *)
Record bounds := Bounds { y1 : Z; y2 : Z; x1 : Z; x2 : Z }.

Definition crop_bounds (img : image) (r : region) (padding : Q) : bounds :=
  let pad_x := py_int (inject_Z (rwidth r) * padding) in
  let pad_y := py_int (inject_Z (rheight r) * padding) in
  {| x1 := Z.max 0 (rx r - pad_x);
     y1 := Z.max 0 (ry r - pad_y);
     x2 := Z.min (img_w img) (rx r + rwidth r + pad_x);
     y2 := Z.min (img_h img) (ry r + rheight r + pad_y) |}.

(** numpy's reading of a slice bound [i] on an axis of length [n]:
    negative bounds count from the end, then everything is clipped. *)
Definition slice_norm (n i : Z) : Z :=
  if (i <? 0)%Z then Z.max 0 (i + n) else Z.min i n.

(** Pixel [(i, j)] (row, column) belongs to [img_array[y1:y2, x1:x2]]. *)
Definition in_slice (img : image) (b : bounds) (i j : Z) : Prop :=
  (slice_norm (img_h img) (y1 b) <= i < slice_norm (img_h img) (y2 b))%Z /\
  (slice_norm (img_w img) (x1 b) <= j < slice_norm (img_w img) (x2 b))%Z.

(** [crop_plate_region(img_array, region, padding)] as the set of pixels
    it returns. *)
Definition crop_plate_region (img : image) (r : region) (padding : Q) (i j : Z) : Prop :=
  in_slice img (crop_bounds img r padding) i j.

(** The padding-expanded rectangle. *)
Definition in_expanded (r : region) (padding : Q) (i j : Z) : Prop :=
  let pad_x := py_int (inject_Z (rwidth r) * padding) in
  let pad_y := py_int (inject_Z (rheight r) * padding) in
  (ry r - pad_y <= i < ry r + rheight r + pad_y)%Z /\
  (rx r - pad_x <= j < rx r + rwidth r + pad_x)%Z.

Definition in_image (img : image) (i j : Z) : Prop :=
  (0 <= i < img_h img)%Z /\ (0 <= j < img_w img)%Z.

(* ================================================================== *)
(** ** The request state: vote buffers and engine calls *)

Inductive ocr_target :=
  | OnCrop (b : bounds)     (* reader.readtext(plate_crop) *)
  | OnFull.                 (* reader.readtext(img_array) *)

Inductive call :=
  | CallGemini              (* model.generate_content([prompt, image]) *)
  | CallReadtext (t : ocr_target).

Record world := World { w_votes : votes_store; w_calls : list call }.

(** The exceptions the handler can see. *)
Inductive exn :=
  | HTTPException (status_code : Z)
  | EngineError             (* anything raised by an engine call *)
  | DecodeError             (* base64 / PIL decoding failure *)
  | ImportError.            (* google.generativeai missing *)

(** A state and exception monad. *)
Definition M (A : Type) : Type := world -> world * (exn + A).

Definition ret {A} (a : A) : M A := fun w => (w, inr a).
Definition bind {A B} (m : M A) (f : A -> M B) : M B :=
  fun w => match m w with
           | (w', inl e) => (w', inl e)
           | (w', inr a) => f a w'
           end.
Definition throw {A} (e : exn) : M A := fun w => (w, inl e).
(** [try: m except Exception as e: h(e)] (state changes made before the
    exception are kept, as Python's in-place mutations are). *)
Definition try_except {A} (m : M A) (h : exn -> M A) : M A :=
  fun w => match m w with
           | (w', inl e) => h e w'
           | r => r
           end.

Notation "'let*' x ':=' m 'in' k" := (bind m (fun x => k))
  (at level 200, x name, m at level 100, k at level 200).

Definition log_call (c : call) : M unit :=
  fun w => ({| w_votes := w_votes w; w_calls := app (w_calls w) [c] |}, inr tt).

Definition record_vote (tid p : string) : M unit :=
  fun w => ({| w_votes := add_temporal_vote (w_votes w) tid p; w_calls := w_calls w |}, inr tt).

Definition consensus (tid : string) : M (option string * Q) :=
  fun w => (w, inr (get_consensus_plate (w_votes w) tid)).

(* ================================================================== *)
(** ** External engines *)

Record env := Env {
  genai_installed : bool;                       (* import google.generativeai *)
  decode : string -> option image;              (* b64decode + Image.open + convert *)
  gemini_api_key : bool;                        (* os.getenv("GEMINI_API_KEY") truthy *)
  gemini_text : image -> option string;         (* response.text; None: raises *)
  easyocr_installed : bool;                     (* import easyocr *)
  readtext : image -> ocr_target -> option (list (string * Q))
                                                (* (text, conf) per box; None: raises *)
}.

Definition MANUAL_SCAN : string := "manual-scan".

(** Truthiness of an [Optional[str]]. *)
Definition truthy (o : option string) : bool :=
  match o with Some s => negb (String.eqb s "") | None => false end.

Definition qlt (a b : Q) : bool := negb (Qle_bool b a).

(** [if plate and track_id != "manual-scan": add_temporal_vote(track_id, plate)]
    (lines 289-290 and 393-394). *)
Definition maybe_vote (track_id : string) (plate : option string) : M unit :=
  match plate with
  | Some p => if truthy plate && negb (String.eqb track_id MANUAL_SCAN)
              then record_vote track_id p else ret tt
  | None => ret tt
  end.

(* ================================================================== *)
(** ** [run_two_stage_ocr] (lines 229-308) *)

Record ocr_result := OcrResult { r_plate : option string; r_conf : Z }.

(** [get_ocr_reader]: raises HTTPException(500) when EasyOCR is missing. *)
Definition get_ocr_reader (E : env) : M unit :=
  if easyocr_installed E then ret tt else throw (HTTPException 500).

Definition readtext_call (E : env) (img : image) (t : ocr_target) : M (list (string * Q)) :=
  let* _ := log_call (CallReadtext t) in
  match readtext E img t with
  | Some r => ret r
  | None => throw EngineError
  end.

(** [score_plate_candidate(cleaned) + (conf * 30)] (line 274) *)
Definition weighted_score (cleaned : string) (conf : Q) : Q :=
  (inject_Z (score_plate_candidate cleaned) + conf * 30)%Q.

(** One iteration of the candidate loop (lines 268-281); the state is
    [(best_plate, best_score, best_conf)]. *)
Definition candidate_step (acc : option string * Q * Q) (frag : string * Q)
    : option string * Q * Q :=
  let '(best_plate, best_score, best_conf) := acc in
  let '(text, conf) := frag in
  let cleaned := str_filter isalnum (upper text) in
  if (4 <=? String.length cleaned)%nat then
    let score := weighted_score cleaned conf in
    if qlt best_score score then (Some cleaned, score, conf) else acc
  else acc.

Definition best_candidate (results : list (string * Q)) : option string * Q * Q :=
  fold_left candidate_step results (None, (-100)%Q, 0%Q).

Definition run_two_stage_ocr (E : env) (img : image) (track_id : string) : M ocr_result :=
  try_except
    (let plate_region := detect_plate_region_heuristic img in
     let plate_crop := crop_bounds img plate_region (1 # 10) in
     let* _ := get_ocr_reader E in
     let* results := readtext_call E img (OnCrop plate_crop) in
     let* results := match results with
                     | [] => readtext_call E img OnFull
                     | _ => ret results
                     end in
     match results with
     | [] => ret {| r_plate := None; r_conf := 0 |}
     | _ =>
         let '(best_plate, best_score, best_conf) := best_candidate results in
         let valid_plate := if qlt 0 best_score then best_plate else None in
         let* _ := maybe_vote track_id valid_plate in
         ret {| r_plate := valid_plate;
                r_conf := if truthy valid_plate then py_int (best_conf * 100) else 0 |}
     end)
    (fun _ => ret {| r_plate := None; r_conf := 0 |}).

(* ================================================================== *)
(** ** The [/ocr/plate-base64] endpoint (lines 315-425) *)

Record request := Request {
  req_image : string;          (* data.get("image", "") *)
  req_trackId : string;        (* data.get("trackId", "unknown") *)
  req_useTemporal : bool       (* truthiness of data.get("useTemporal", True) *)
}.

Record body := Body {
  success : bool;
  trackId : string;
  plate : option string;
  confidence : Z;
  instantPlate : option string;
  instantConfidence : Z;
  consensusVotes : Q;
  engine : string
}.

Inductive response :=
  | Ok200 (b : body)           (* JSONResponse(...) *)
  | HttpError (status : Z).    (* an exception reaching FastAPI *)

(** The text after the first [sep] ([None] if [sep] does not occur). *)
Fixpoint after_first (sep s : string) : option string :=
  if String.prefix sep s then Some (substring (String.length sep) (String.length s) s)
  else match s with
       | EmptyString => None
       | String _ s' => after_first sep s'
       end.

(** The text before the first [sep] (all of [s] if it does not occur). *)
Fixpoint before_first (sep s : string) : string :=
  if String.prefix sep s then EmptyString
  else match s with
       | EmptyString => EmptyString
       | String c s' => String c (before_first sep s')
       end.

(** [if "base64," in d: d = d.split("base64,")[1]] *)
Definition strip_data_url (d : string) : string :=
  match after_first "base64," d with
  | Some rest => before_first "base64," rest
  | None => d
  end.

(** The Gemini block (lines 352-382): [(plate, confidence, engine_used)]. *)
Definition gemini_read (E : env) (img : image) : M (option string * Z * string) :=
  try_except
    (let* _ := log_call CallGemini in
     match gemini_text E img with
     | None => throw EngineError
     | Some raw =>
         let result_text := upper (strip raw) in
         let cleaned := str_filter isalnum result_text in
         if negb (String.eqb cleaned "") && negb (String.eqb cleaned "NONE")
            && (6 <=? String.length cleaned)%nat then
           if (0 <? score_plate_candidate cleaned)%Z
           then ret (Some cleaned, 95%Z, "Gemini Vision")
           else ret (None, 0%Z, "none")
         else ret (None, 0%Z, "none")
     end)
    (fun _ => ret (None, 0%Z, "none")).

Definition read_plate_body (E : env) (data : request) : M body :=
  if negb (genai_installed E) then throw ImportError else
  try_except
    (let image_data := req_image data in
     let track_id := req_trackId data in
     let use_temporal := req_useTemporal data in
     if String.eqb image_data "" then throw (HTTPException 400) else
     match decode E (strip_data_url image_data) with
     | None => throw DecodeError
     | Some img =>
         let* g := if gemini_api_key E then gemini_read E img
                   else ret (None, 0%Z, "none") in
         let* f := if negb (truthy (fst (fst g))) then
                     let* result := run_two_stage_ocr E img track_id in
                     ret (r_plate result, r_conf result, "EasyOCR")
                   else ret g in
         let '(plate, confidence, engine_used) := f in
         let* _ := maybe_vote track_id plate in
         let* c := if use_temporal && negb (String.eqb track_id MANUAL_SCAN)
                   then consensus track_id else ret (None, 0%Q) in
         let '(consensus_plate, consensus_conf) := c in
         let final_plate := if Qle_bool 50 consensus_conf then consensus_plate else plate in
         let final_conf := if truthy consensus_plate then py_int consensus_conf else confidence in
         ret {| success := match final_plate with Some _ => true | None => false end;
                trackId := track_id;
                plate := final_plate;
                confidence := final_conf;
                instantPlate := plate;
                instantConfidence := confidence;
                consensusVotes := consensus_conf;
                engine := engine_used |}
     end)
    (fun e => throw (HTTPException 500)).

(** What the client receives: the JSON body, or the status code of the
    exception that left the handler (FastAPI answers 500 for any
    exception other than an HTTPException). *)
Definition read_plate_from_base64 (E : env) (data : request) (w : world) : world * response :=
  match read_plate_body E data w with
  | (w', inr b) => (w', Ok200 b)
  | (w', inl (HTTPException c)) => (w', HttpError c)
  | (w', inl _) => (w', HttpError 500)
  end.

(** Number of (possibly overlapping) occurrences of [w] in [s]. *)
Fixpoint occurrences (w s : string) : nat :=
  (if String.prefix w s then 1 else 0) +
  match s with
  | EmptyString => 0
  | String _ s' => occurrences w s'
  end.

(** Total number of occurrences of blocklisted words in [s]. *)
Definition blocklist_occurrences (s : string) : nat :=
  fold_right (fun w n => occurrences w s + n)%nat 0%nat bad_words.

(** The blocklisted words that occur in [s] at least once. *)
Definition blocklisted_in (s : string) : list string :=
  List.filter (fun w => contains w s) bad_words.

(** The effect of [maybe_vote] on the buffers. *)
Definition votes_after (st : votes_store) (track_id : string) (plate : option string)
    : votes_store :=
  match plate with
  | Some p => if truthy plate && negb (String.eqb track_id MANUAL_SCAN)
              then add_temporal_vote st track_id p else st
  | None => st
  end.

(** The text kept from Gemini's answer (lines 366-371). *)
Definition gemini_cleaned (raw : string) : string :=
  str_filter isalnum (upper (strip raw)).

(** The result of the Gemini block once it has been called. *)
Definition gemini_outcome (E : env) (img : image) : option string * Z * string :=
  match gemini_text E img with
  | None => (None, 0%Z, "none")
  | Some raw =>
      let cleaned := gemini_cleaned raw in
      if negb (String.eqb cleaned "") && negb (String.eqb cleaned "NONE")
         && (6 <=? String.length cleaned)%nat then
        if (0 <? score_plate_candidate cleaned)%Z
        then (Some cleaned, 95%Z, "Gemini Vision")
        else (None, 0%Z, "none")
      else (None, 0%Z, "none")
  end.

(** The crop the pipeline reads first. *)
Definition pipeline_crop (img : image) : bounds :=
  crop_bounds img (detect_plate_region_heuristic img) (1 # 10).

(** The EasyOCR calls of one run of the pipeline: the plate crop, then
    the full image only if the crop gave no result. *)
Definition easyocr_calls (E : env) (img : image) : list call :=
  if easyocr_installed E then
    CallReadtext (OnCrop (pipeline_crop img))
    :: match readtext E img (OnCrop (pipeline_crop img)) with
       | Some [] => [CallReadtext OnFull]
       | _ => []
       end
  else [].

(* ================================================================== *)
(** ** The result of [run_two_stage_ocr] as a function of the engine *)

(** The fragments the pipeline scores: the crop's, or the full image's
    when the crop gave none; [None] when an exception is raised on the way
    (EasyOCR missing, or [readtext] raising). *)
Definition two_stage_results (E : env) (img : image) : option (list (string * Q)) :=
  if easyocr_installed E then
    match readtext E img (OnCrop (pipeline_crop img)) with
    | None => None
    | Some [] => readtext E img OnFull
    | Some rs => Some rs
    end
  else None.

(** The dictionary [run_two_stage_ocr] returns ([plate], [confidence]). *)
Definition two_stage_result (E : env) (img : image) : ocr_result :=
  match two_stage_results E img with
  | None | Some [] => {| r_plate := None; r_conf := 0 |}
  | Some rs =>
      let '(best_plate, best_score, best_conf) := best_candidate rs in
      let valid_plate := if qlt 0 best_score then best_plate else None in
      {| r_plate := valid_plate;
         r_conf := if truthy valid_plate then py_int (best_conf * 100) else 0 |}
  end.

(** An entry of [all_text]: [f"{cleaned} ({conf:.2f})"], kept as the
    pair it prints. *)
Definition fragment_text (frag : string * Q) : string * Q :=
  (str_filter isalnum (upper (fst frag)), snd frag).

(** [result.get('all_text', [])]: one entry per scored fragment; [[]]
    when nothing was read or an exception was caught. *)
Definition two_stage_all_text (E : env) (img : image) : list (string * Q) :=
  match two_stage_results E img with
  | Some rs => map fragment_text rs
  | None => []
  end.

(* ================================================================== *)
(** ** The other endpoints of the route (lines 428-554) *)

Record upload_body := UploadBody {
  u_success : bool;
  u_plate : option string;
  u_confidence : Z;
  u_all_text : list (string * Q)
}.

(** [/ocr/plate]: [open_image] is [Image.open] (+ [convert('RGB')]) on
    the uploaded bytes; an exception leaving the handler is a 500. *)
Definition read_license_plate (E : env) (open_image : string -> option image)
    (content_type contents : string) : M upload_body :=
  try_except
    (if negb (String.prefix "image/" content_type) then throw (HTTPException 400) else
     match open_image contents with
     | None => throw DecodeError
     | Some img =>
         let* result := run_two_stage_ocr E img "file-upload" in
         ret {| u_success := match r_plate result with Some _ => true | None => false end;
                u_plate := r_plate result;
                u_confidence := r_conf result;
                u_all_text := two_stage_all_text E img |}
     end)
    (fun e => throw (HTTPException 500)).

(** [/ocr/clear-temporal]: [data] is the JSON body ([None] when absent),
    a dictionary with string values; the result is the new buffers and
    [(success, cleared)]. *)
Definition clear_temporal (data : option (gmap string string)) (st : votes_store)
    : votes_store * (bool * string) :=
  let track_id := match data with
                  | Some d => if decide (d = ∅) then None else d !! "trackId"
                  | None => None
                  end in
  (clear_temporal_votes st track_id,
   (true, match track_id with
          | Some t => if String.eqb t "" then "all" else t
          | None => "all"
          end)).

(** The bodies [/ocr/plate-gemini] answers with. *)
Inductive gemini_response :=
  | GemPlate (track_id plate : string)          (* success, confidence 95 *)
  | GemNoPlate (track_id raw_response : string) (* success False, raw_response *)
  | GemKeyMissing                               (* error "GEMINI_API_KEY not set" *)
  | GemError (e : exn).                         (* error str(e) *)

(** [/ocr/plate-gemini]: [ask] is Gemini's [response.text] for this
    endpoint's prompt ([None]: raises). The payload is decoded as in
    [/ocr/plate-base64] ([decode]). *)
Definition read_plate_with_gemini (E : env) (ask : image -> option string) (data : request)
    : M gemini_response :=
  if negb (genai_installed E) then throw ImportError else
  try_except
    (let image_data := req_image data in
     let track_id := req_trackId data in
     if String.eqb image_data "" then throw (HTTPException 400) else
     if negb (gemini_api_key E) then ret GemKeyMissing else
     match decode E (strip_data_url image_data) with
     | None => throw DecodeError
     | Some img =>
         let* _ := log_call CallGemini in
         match ask img with
         | None => throw EngineError
         | Some raw =>
             let result_text := upper (strip raw) in
             let plate := str_filter isalnum result_text in
             if negb (String.eqb plate "") && negb (String.eqb plate "NONE")
                && (6 <=? String.length plate)%nat
             then ret (GemPlate track_id plate)
             else ret (GemNoPlate track_id result_text)
         end
     end)
    (fun e => ret (GemError e)).

(* ================================================================== *)
(** ** [utils/plate_detector.py] *)

Module PlateDetector.

Local Open Scope Q_scope.

(** A YOLO box: [xyxy[0]] and [conf[0]]. *)
Record det_box := DetBox { bx1 : Q; by1 : Q; bx2 : Q; by2 : Q; bconf : Q }.

(** The dictionary returned by [detect_plate_region]. *)
Record detection := Detection {
  d_found : bool;
  d_bbox : Q * Q * Q * Q;          (* (x, y, w, h) *)
  d_confidence : Q;
  d_method : string
}.

(** [get_plate_model()] and the model's inference. *)
Record detector := Detector {
  model_loaded : bool;                              (* get_plate_model() is not None *)
  infer : image -> option (list (list det_box))     (* boxes of each result; None: raises *)
}.

(** [_heuristic_plate_region] *)
Definition _heuristic_plate_region (img : image) : detection :=
  let h := img_h img in
  let w := img_w img in
  let plate_x := py_int (inject_Z w * (2 # 10)) in
  let plate_y := py_int (inject_Z h * (5 # 10)) in
  let plate_w := py_int (inject_Z w * (6 # 10)) in
  let plate_h := py_int (inject_Z h * (4 # 10)) in
  {| d_found := true;
     d_bbox := (inject_Z plate_x, inject_Z plate_y, inject_Z plate_w, inject_Z plate_h);
     d_confidence := 1 # 2;
     d_method := "heuristic" |}.

(** [lo < x < hi] on the quotient [num / den] of numpy floats: a zero
    denominator gives [inf] or [nan], for which the test is false. *)
Definition ratio_between (lo hi num den : Q) : bool :=
  if Qeq_bool den 0 then false
  else qlt lo (num / den) && qlt (num / den) hi.

(** The plate-likeness score of a box (lines 91-107). *)
Definition box_score (h w : Z) (b : det_box) : Q :=
  let box_w := bx2 b - bx1 b in
  let box_h := by2 b - by1 b in
  let box_y_center := (by1 b + by2 b) / 2 in
  let aspect_ratio := box_w / (if qlt box_h 1 then 1 else box_h) in   (* max(box_h, 1) *)
  let s0 := bconf b in
  let s1 := if qlt 2 aspect_ratio && qlt aspect_ratio 6 then s0 + (3 # 10) else s0 in
  let s2 := if ratio_between (4 # 10) (9 # 10) box_y_center (inject_Z h) then s1 + (2 # 10) else s1 in
  let s3 := if ratio_between (1 # 100) (3 # 10) (box_w * box_h) (inject_Z (w * h))
            then s2 + (1 # 10) else s2 in
  s3.

(** One iteration of the box loop; the state is [(best_box, best_score)]. *)
Definition box_step (h w : Z) (threshold : Q) (acc : option (Q * Q * Q * Q) * Q) (b : det_box)
    : option (Q * Q * Q * Q) * Q :=
  let '(best_box, best_score) := acc in
  let score := box_score h w b in
  if qlt best_score score && Qle_bool threshold (bconf b)
  then (Some (bx1 b, by1 b, bx2 b - bx1 b, by2 b - by1 b), score)
  else acc.

Definition best_box (h w : Z) (threshold : Q) (boxes : list det_box) : option (Q * Q * Q * Q) * Q :=
  fold_left (box_step h w threshold) boxes (None, 0).

(** [detect_plate_region(image_array, confidence_threshold)] *)
Definition detect_plate_region (D : detector) (img : image) (confidence_threshold : Q) : detection :=
  if negb (model_loaded D) then _heuristic_plate_region img else
  match infer D img with
  | None => _heuristic_plate_region img
  | Some [] | Some ([] :: _) => _heuristic_plate_region img
  | Some (boxes :: _) =>
      match best_box (img_h img) (img_w img) confidence_threshold boxes with
      | (Some bb, best_score) =>
          {| d_found := true; d_bbox := bb; d_confidence := best_score; d_method := "yolo" |}
      | (None, _) => _heuristic_plate_region img
      end
  end.

(** The slice bounds of [crop_plate_region(image_array, bbox, padding)]. *)
Definition crop_bounds (img : image) (bbox : Q * Q * Q * Q) (padding : Q) : bounds :=
  let '(x, y, bw, bh) := bbox in
  let pad_x := py_int (bw * padding) in
  let pad_y := py_int (bh * padding) in
  {| x1 := Z.max 0 (py_int x - pad_x);
     y1 := Z.max 0 (py_int y - pad_y);
     x2 := Z.min (img_w img) (py_int (x + bw) + pad_x);
     y2 := Z.min (img_h img) (py_int (y + bh) + pad_y) |}.

(** [crop_plate_region] as the set of pixels it returns. *)
Definition crop_plate_region (img : image) (bbox : Q * Q * Q * Q) (padding : Q) (i j : Z) : Prop :=
  in_slice img (crop_bounds img bbox padding) i j.

(** The loop invariant of [best_box] after the boxes [P]. *)
Definition best_box_inv (h w : Z) (threshold : Q) (P : list det_box)
    (acc : option (Q * Q * Q * Q) * Q) : Prop :=
  (forall b', In b' P -> (threshold <= bconf b')%Q -> (box_score h w b' <= snd acc)%Q) /\
  match acc with
  | (None, s) => s = 0%Q
  | (Some bb, s) => exists b, In b P /\ (threshold <= bconf b)%Q /\
                     bb = (bx1 b, by1 b, (bx2 b - bx1 b)%Q, (by2 b - by1 b)%Q) /\
                     s = box_score h w b /\ (0 < s)%Q
  end.

End PlateDetector.

(** What the candidate loop keeps: nothing (score -100), or the cleaned
    text of one of the fragments with its weighted score and confidence. *)
Definition best_inv (rs : list (string * Q)) (acc : option string * Q * Q) : Prop :=
  match acc with
  | (None, s, c) => s = (-100)%Q /\ c = 0%Q
  | (Some p, s, c) => exists fr, In fr rs /\ p = str_filter isalnum (upper (fst fr)) /\
                                  s = weighted_score p (snd fr) /\ c = snd fr
  end.

(** A text of no comma. *)
Definition no_comma (s : string) : bool :=
  forallb (fun c => negb (Ascii.eqb c ",")) (list_ascii_of_string s).

(** A detector whose model finds one box of confidence 0.9. *)
Definition sample_detector : PlateDetector.detector :=
  PlateDetector.Detector true
    (fun _ => Some [[PlateDetector.DetBox 10 50 110 80 (9 # 10)]]).

(** A concrete environment for evaluations: every payload decodes to a
    200x100 image, Gemini answers [gem], EasyOCR answers [on_crop] on the
    plate crop and [on_full] on the full image. *)
Definition sample_img : image := Image 100 200 "jpeg".

Definition sample_env (gem : option string)
    (on_crop on_full : option (list (string * Q))) : env :=
  {| genai_installed := true;
     decode := fun _ => Some sample_img;
     gemini_api_key := true;
     gemini_text := fun _ => gem;
     easyocr_installed := true;
     readtext := fun _ t => match t with OnCrop _ => on_crop | OnFull => on_full end |}.

Definition empty_world : world := World ∅ [].

(** A data-URL request for track "car-1", and a manual scan. *)
Definition sample_request : request := Request "data:image/jpeg;base64,/9j/4AAQ" "car-1" true.

Definition manual_request : request := Request "/9j/4AAQ" "manual-scan" true.

(** Gemini answers "NONE"; EasyOCR reads one fragment on the plate crop. *)
Definition fallback_env : env :=
  sample_env (Some "NONE") (Some [("MH12AB4567", 88 # 100)]) (Some []).


(** Gemini reads a valid plate. *)
Definition gemini_env : env := sample_env (Some " mh12ab4567 ") (Some []) (Some []).

(** A request without image data. *)
Definition request_without_image : request := Request "" "car-1" true.

(** The readings of a sequence that [add_temporal_vote] keeps. *)
Definition nonempty_texts (ps : list string) : list string :=
  List.filter (fun p => negb (String.eqb p "")) ps.

(** Recording a sequence of readings for one track. *)
Definition record_all (st : votes_store) (tid : string) (ps : list string) : votes_store :=
  fold_left (fun st p => add_temporal_vote st tid p) ps st.

(** Fifteen successive readings. *)
Definition readings_1_to_15 : list string :=
  ["P01"; "P02"; "P03"; "P04"; "P05"; "P06"; "P07"; "P08"; "P09"; "P10";
   "P11"; "P12"; "P13"; "P14"; "P15"].

(** The distinct readings of a buffer in order of first occurrence
    (the key order of [Counter(votes)]). *)
Definition firsts (l : list string) : list string :=
  fold_left (fun acc x => if existsb (String.eqb x) acc then acc else acc ++ [x]) l [].

(* ================================================================== *)
(** * Properties *)

(** ** Sample evaluations *)
Example score_phone : score_plate_candidate "PHONE70" = (-55)%Z.
Proof. reflexivity. Qed.
Example score_car123 : score_plate_candidate "CAR123" = (-155)%Z.
Proof. reflexivity. Qed.
Example indian_no : is_indian_plate "ABCDEF" = false.
Proof. reflexivity. Qed.

Example score_good_plate : score_plate_candidate "MH12AB4567" = 150%Z.
Proof. reflexivity. Qed.

Example score_car89 : score_plate_candidate "CAR89" = (-50)%Z.
Proof. reflexivity. Qed.

Example indian_spaces : is_indian_plate "mh 12-ab 4567" = true.
Proof. reflexivity. Qed.

Example consensus_example :
  get_consensus_plate {[ "t" := ["MH12AB4567"; "MH12AB4567"; "DL9CAB1234"] ]} "t"
  = (Some "MH12AB4567", (2 # 3) * 100)%Q.
Proof. vm_compute. reflexivity. Qed.

Example consensus_tie :
  fst (get_consensus_plate {[ "t" := ["B"; "A"; "A"; "B"] ]} "t") = Some "B".
Proof. vm_compute. reflexivity. Qed.

(** ** Temporal voting buffers *)

Lemma length_last_n n (l : list string) : length (last_n n l) = Nat.min n (length l).
Proof. unfold last_n. rewrite length_drop. lia. Qed.

Lemma last_n_small n (l : list string) : (length l <= n)%nat -> last_n n l = l.
Proof. intros H. unfold last_n. replace (length l - n)%nat with 0%nat by lia. apply drop_0. Qed.

Lemma last_n_app_last_n n (a b : list string) :
  last_n n (last_n n a ++ b) = last_n n (a ++ b).
Proof.
  unfold last_n. rewrite <- drop_app_le by lia.
  rewrite drop_drop, length_drop, !length_app. f_equal. lia.
Qed.

Lemma add_vote_lookup st tid p :
  p <> "" ->
  add_temporal_vote st tid p !! tid = Some (last_n TEMPORAL_WINDOW (votes_of st tid ++ [p])).
Proof.
  intros Hp. unfold add_temporal_vote.
  destruct (String.eqb_spec p "") as [->|_]; [congruence|].
  rewrite lookup_insert_eq. f_equal.
  destruct (Nat.ltb_spec TEMPORAL_WINDOW (length (votes_of st tid ++ [p]))); [done|].
  symmetry. apply last_n_small. lia.
Qed.

Lemma add_vote_empty st tid : add_temporal_vote st tid "" = st.
Proof. reflexivity. Qed.

Lemma add_vote_other st tid tid' p :
  tid' <> tid -> add_temporal_vote st tid p !! tid' = st !! tid'.
Proof.
  intros Hne. unfold add_temporal_vote.
  destruct (String.eqb p ""); [done|]. by rewrite lookup_insert_ne.
Qed.

Lemma record_all_lookup (st : votes_store) (tid : string) (ps : list string) :
  record_all st tid ps !! tid =
    match nonempty_texts ps with
    | [] => st !! tid
    | ne => Some (last_n TEMPORAL_WINDOW (votes_of st tid ++ ne))
    end.
Proof.
  revert st. induction ps as [|p ps IH]; intros st; [done|].
  cbn [record_all fold_left].
  fold (record_all (add_temporal_vote st tid p) tid ps).
  destruct (String.eqb_spec p "") as [->|Hp].
  - rewrite add_vote_empty. apply IH.
  - replace (nonempty_texts (p :: ps)) with (p :: nonempty_texts ps)
      by (unfold nonempty_texts; cbn [List.filter]; destruct (String.eqb_spec p ""); [congruence|reflexivity]).
    rewrite IH. unfold votes_of at 1. rewrite add_vote_lookup by done.
    cbn [default id]. destruct (nonempty_texts ps) as [|q qs]; [done|].
    rewrite last_n_app_last_n, <- app_assoc. done.
Qed.

Lemma record_all_other (st : votes_store) (tid tid' : string) (ps : list string) :
  tid' <> tid -> record_all st tid ps !! tid' = st !! tid'.
Proof.
  intros Hne. revert st. induction ps as [|p ps IH]; intros st; [done|].
  cbn [record_all fold_left]. fold (record_all (add_temporal_vote st tid p) tid ps).
  rewrite IH. by apply add_vote_other.
Qed.

(** C2: after recording any sequence of readings [ps] for a track, its
    buffer is the last [TEMPORAL_WINDOW] (= 10) of the old buffer followed
    by the non-empty readings in recording order (oldest discarded
    first), it holds at most 10 entries once anything was recorded, and
    the buffers of the other tracks are untouched. *)
Theorem vote_buffer_window (st : votes_store) (tid : string) (ps : list string) :
  record_all st tid ps !! tid =
    match nonempty_texts ps with
    | [] => st !! tid
    | ne => Some (last_n TEMPORAL_WINDOW (votes_of st tid ++ ne))
    end
  /\ (nonempty_texts ps <> [] ->
      length (votes_of (record_all st tid ps) tid) <= TEMPORAL_WINDOW)%nat
  /\ (forall tid', tid' <> tid -> record_all st tid ps !! tid' = st !! tid').
Proof.
  split; [apply record_all_lookup|split].
  - intros Hne. unfold votes_of. rewrite record_all_lookup.
    destruct (nonempty_texts ps) as [|q qs]; [congruence|].
    cbn [default id]. rewrite length_last_n. lia.
  - intros tid' H. by apply record_all_other.
Qed.

Example window_15_into_10 :
  record_all ∅ "car-7" readings_1_to_15 !! "car-7"
  = Some ["P06"; "P07"; "P08"; "P09"; "P10"; "P11"; "P12"; "P13"; "P14"; "P15"].
Proof. vm_compute. reflexivity. Qed.

(** ** Consensus *)

Lemma existsb_eqb_In x (l : list string) : existsb (String.eqb x) l = true <-> In x l.
Proof.
  rewrite existsb_exists. split.
  - intros [y [Hy E]]. apply String.eqb_eq in E. by subst.
  - intros H. exists x. split; [done|]. apply String.eqb_refl.
Qed.

Lemma firsts_snoc (l : list string) x :
  firsts (l ++ [x]) = if existsb (String.eqb x) (firsts l) then firsts l else firsts l ++ [x].
Proof. unfold firsts. by rewrite fold_left_app. Qed.

Lemma firsts_In (l : list string) k : In k (firsts l) <-> In k l.
Proof.
  revert k. induction l as [|x l IH] using rev_ind; intros k; [done|].
  rewrite firsts_snoc. destruct (existsb (String.eqb x) (firsts l)) eqn:E.
  - apply existsb_eqb_In, IH in E. rewrite IH, in_app_iff. simpl. intuition congruence.
  - rewrite !in_app_iff, IH. done.
Qed.

Lemma firsts_NoDup (l : list string) : NoDup (firsts l).
Proof.
  induction l as [|x l IH] using rev_ind; [constructor|].
  rewrite firsts_snoc. destruct (existsb (String.eqb x) (firsts l)) eqn:E; [done|].
  apply NoDup_app. split; [done|]. split.
  - intros y Hy Hy'. apply list_elem_of_In in Hy, Hy'. destruct Hy' as [<-|[]].
    apply existsb_eqb_In in Hy. congruence.
  - apply NoDup_singleton.
Qed.

Lemma count_of_snoc k (l : list string) x :
  count_of k (l ++ [x]) = (count_of k l + if String.eqb x k then 1 else 0)%nat.
Proof.
  unfold count_of. rewrite List.filter_app, length_app. simpl.
  destruct (String.eqb x k); simpl; lia.
Qed.

Lemma count_of_notin k (l : list string) : ~ In k l -> count_of k l = 0%nat.
Proof.
  induction l as [|x l IH]; intros H; [done|]. unfold count_of in *. simpl.
  destruct (String.eqb_spec x k) as [->|_]; [simpl in H; tauto|].
  apply IH. simpl in H. tauto.
Qed.

Lemma counter_add_map (g : string -> nat) (K : list string) x :
  NoDup K ->
  counter_add (map (fun k => (k, g k)) K) x =
    if existsb (String.eqb x) K
    then map (fun k => (k, if String.eqb k x then S (g k) else g k)) K
    else map (fun k => (k, g k)) K ++ [(x, 1%nat)].
Proof.
  induction K as [|k K IH]; intros HK; [done|].
  inversion HK as [|? ? Hk HK']; subst. cbn [map counter_add existsb].
  destruct (String.eqb_spec k x) as [->|Hkx].
  - rewrite String.eqb_refl. cbn [orb]. f_equal. apply map_ext_in.
    intros k' Hk'. destruct (String.eqb_spec k' x) as [->|]; [|done].
    exfalso. apply Hk. by apply list_elem_of_In.
  - replace (String.eqb x k) with false
      by (symmetry; apply String.eqb_neq; congruence).
    cbn [orb]. rewrite IH by done.
    destruct (existsb (String.eqb x) K); [done|]. done.
Qed.

Lemma counter_spec (l : list string) :
  counter l = map (fun k => (k, count_of k l)) (firsts l).
Proof.
  induction l as [|x l IH] using rev_ind; [done|].
  unfold counter. rewrite fold_left_app. fold (counter l). cbn [fold_left].
  rewrite IH, counter_add_map by apply firsts_NoDup. rewrite firsts_snoc.
  destruct (existsb (String.eqb x) (firsts l)) eqn:E.
  - apply map_ext. intros k. rewrite count_of_snoc.
    rewrite (String.eqb_sym k x). destruct (String.eqb x k); f_equal; lia.
  - rewrite map_app. cbn [map]. f_equal.
    + apply map_ext_in. intros k Hk. rewrite count_of_snoc.
      destruct (String.eqb_spec x k) as [->|]; [|f_equal; lia].
      assert (existsb (String.eqb k) (firsts l) = true) by (by apply existsb_eqb_In).
      congruence.
    + rewrite count_of_snoc, String.eqb_refl, count_of_notin; [done|].
      rewrite <- firsts_In, <- existsb_eqb_In. congruence.
Qed.

(** [max] keeps the first item of largest count. *)
Lemma max_by_count_spec (b : string * nat) (L : list (string * nat)) :
  In (max_by_count b L) (b :: L) /\
  (forall y, In y (b :: L) -> (snd y <= snd (max_by_count b L))%nat) /\
  find (fun y => Nat.eqb (snd y) (snd (max_by_count b L))) (b :: L) = Some (max_by_count b L).
Proof.
  revert b. induction L as [|it L IH]; intros b.
  - cbn. rewrite Nat.eqb_refl. split; [tauto|]. split; [|done].
    intros y [<-|[]]. lia.
  - cbn [max_by_count]. destruct (Nat.ltb_spec (snd b) (snd it)) as [Hlt|Hge].
    + destruct (IH it) as (Hin & Hmax & Hfind). set (r := max_by_count it L) in *.
      assert (Hr : (snd it <= snd r)%nat) by (apply Hmax; left; done).
      split; [right; done|]. split.
      * intros y [<-|Hy]; [lia|]. by apply Hmax.
      * cbn [find]. replace (Nat.eqb (snd b) (snd r)) with false
          by (symmetry; apply Nat.eqb_neq; lia). done.
    + destruct (IH b) as (Hin & Hmax & Hfind). set (r := max_by_count b L) in *.
      assert (Hr : (snd b <= snd r)%nat) by (apply Hmax; left; done).
      split; [destruct Hin as [<-|Hin]; [left|right; right]; done|]. split.
      * intros y [<-|[<-|Hy]]; [lia|lia|]. apply Hmax. by right.
      * cbn [find] in Hfind |- *. destruct (Nat.eqb_spec (snd b) (snd r)); [done|].
        replace (Nat.eqb (snd it) (snd r)) with false
          by (symmetry; apply Nat.eqb_neq; lia). done.
Qed.

Lemma find_map_pairs (g : string -> nat) (P : string * nat -> bool) (K : list string) :
  find P (map (fun k => (k, g k)) K) =
  option_map (fun k => (k, g k)) (find (fun k => P (k, g k)) K).
Proof. induction K as [|k K IH]; [done|]. cbn. by destruct (P (k, g k)). Qed.

Lemma find_snoc (P : string -> bool) (l : list string) x :
  find P (l ++ [x]) = match find P l with
                      | Some y => Some y
                      | None => if P x then Some x else None
                      end.
Proof. induction l as [|y l IH]; [done|]. cbn. by destruct (P y). Qed.

Lemma find_firsts (P : string -> bool) (l : list string) : find P (firsts l) = find P l.
Proof.
  induction l as [|x l IH] using rev_ind; [done|].
  rewrite firsts_snoc, find_snoc. destruct (existsb (String.eqb x) (firsts l)) eqn:E.
  - rewrite IH. destruct (find P l) eqn:F; [done|].
    apply existsb_eqb_In in E. apply (proj1 (firsts_In l x)) in E. by rewrite (find_none _ _ F x E).
  - by rewrite find_snoc, IH.
Qed.

Lemma find_index (P : string -> bool) (l : list string) p s :
  find P l = Some p -> In s l -> P s = true -> (index_of p l <= index_of s l)%nat.
Proof.
  induction l as [|x l IH]; intros Hf Hs HPs; [done|]. cbn in Hf |- *.
  destruct (P x) eqn:Px.
  - injection Hf as <-. rewrite String.eqb_refl. lia.
  - destruct Hs as [<-|Hs]; [congruence|].
    destruct (find_some _ _ Hf) as [_ HPp].
    destruct (String.eqb_spec x p) as [->|]; [congruence|].
    destruct (String.eqb_spec x s) as [->|]; [congruence|].
    specialize (IH Hf Hs HPs). lia.
Qed.

(** C1: on a non-empty buffer the consensus is a reading of largest
    count, reported with [100 * count / len(buffer)]; among equally
    frequent readings it is the one whose first occurrence comes first.
    An empty or absent buffer yields no plate text. *)
Theorem consensus_is_first_mode (st : votes_store) (tid : string) :
  match votes_of st tid with
  | [] => get_consensus_plate st tid = (None, 0%Q)
  | votes =>
      exists p conf,
        get_consensus_plate st tid = (Some p, conf) /\
        In p votes /\
        (forall s, (count_of s votes <= count_of p votes)%nat) /\
        (conf == inject_Z (100 * Z.of_nat (count_of p votes))
                 / inject_Z (Z.of_nat (length votes)))%Q /\
        (forall s, In s votes -> count_of s votes = count_of p votes ->
                   (index_of p votes <= index_of s votes)%nat)
  end.
Proof.
  unfold get_consensus_plate. destruct (votes_of st tid) as [|v vs] eqn:Hv; [done|].
  set (votes := v :: vs). set (g := fun k => count_of k votes).
  rewrite counter_spec. fold g.
  destruct (firsts votes) as [|k0 K] eqn:HF.
  { exfalso. assert (Hv0 : In v (firsts votes)) by (apply firsts_In; left; done).
    rewrite HF in Hv0. done. }
  cbn [map most_common1].
  destruct (max_by_count_spec (k0, g k0) (map (fun k => (k, g k)) K)) as (Hin & Hmax & Hfind).
  change ((k0, g k0) :: map (fun k => (k, g k)) K) with (map (fun k => (k, g k)) (k0 :: K)) in *.
  rewrite <- HF in *.
  change (max_by_count (k0, count_of k0 votes) (map (fun k => (k, count_of k votes)) K))
    with (max_by_count (k0, g k0) (map (fun k => (k, g k)) K)).
  destruct (max_by_count (k0, g k0) (map (fun k => (k, g k)) K)) as [p n] eqn:Hr.
  apply in_map_iff in Hin. destruct Hin as [p' [Hp' Hinp]]. injection Hp' as <- <-.
  exists p', ((inject_Z (Z.of_nat (g p')) / inject_Z (Z.of_nat (length votes))) * 100)%Q.
  split; [done|]. split; [by apply firsts_In|]. split; [|split].
  - intros s. destruct (in_dec String.string_dec s votes) as [Hs|Hs].
    + apply (Hmax (s, g s)). apply in_map_iff. exists s. split; [done|]. by apply firsts_In.
    + rewrite (count_of_notin s) by done. lia.
  - fold (g p'). assert (Hlen : (0 < length votes)%nat) by (cbn; lia).
    rewrite inject_Z_mult. field.
    intros H. unfold Qeq in H. cbn in H. lia.
  - intros s Hs Hc. rewrite find_map_pairs in Hfind. cbn [snd] in Hfind.
    destruct (find (fun k => Nat.eqb (g k) (g p')) (firsts votes)) as [q|] eqn:Hq;
      [|done].
    injection Hfind as ->. rewrite find_firsts in Hq.
    apply (find_index _ _ _ _ Hq Hs). unfold g. rewrite Hc. apply Nat.eqb_refl.
Qed.

(** ** Candidate scoring *)

Lemma bad_word_fold (ws : list string) (cleaned : string) (sc : Z) :
  fold_left (fun sc w => if contains w cleaned then (sc - 100)%Z else sc) ws sc
  = (sc - 100 * Z.of_nat (length (List.filter (fun w => contains w cleaned) ws)))%Z.
Proof.
  revert sc. induction ws as [|w ws IH]; intros sc; cbn; [lia|].
  rewrite IH. destruct (contains w cleaned); cbn [length]; lia.
Qed.

(** C3 (as stated, refuted): the blocklist step does not take 100 points
    per occurrence: "PHONEPHONE12" contains "PHONE" twice and loses
    only 100 points in that step. *)
Lemma blocklist_counts_occurrences_false :
  ~ (forall text, bad_word_step (normalize text) 0
                  = (- 100 * Z.of_nat (blocklist_occurrences (normalize text)))%Z).
Proof.
  intros H. specialize (H "PHONEPHONE12"). vm_compute in H. discriminate.
Qed.

(** C3 (amended): on a text of normalized length at least 6, the score
    is the bonus total, minus 100 for each distinct blocklisted word that
    occurs in the normalized text (repeats of one word count once,
    distinct words stack), minus 100 more for a track-id label. *)
Theorem blocklist_penalty_per_distinct_word (text : string) :
  (6 <= String.length (normalize text))%nat ->
  score_plate_candidate text =
    (score_bonuses (normalize text)
     - 100 * Z.of_nat (length (blocklisted_in (normalize text)))
     - (if existsb (fun pat => re_match pat (normalize text)) track_id_patterns
        then 100 else 0))%Z.
Proof.
  intros Hlen. unfold score_plate_candidate, track_id_step, bad_word_step, blocklisted_in.
  replace (String.length (normalize text) <? 6)%nat with false
    by (symmetry; apply Nat.ltb_ge; lia).
  rewrite bad_word_fold. destruct (existsb _ _); lia.
Qed.

Lemma blocklist_penalty_per_distinct_word_witness :
  (6 <= String.length (normalize "PHONEPHONE12"))%nat /\
  score_plate_candidate "PHONEPHONE12" =
    (score_bonuses (normalize "PHONEPHONE12")
     - 100 * Z.of_nat (length (blocklisted_in (normalize "PHONEPHONE12")))
     - (if existsb (fun pat => re_match pat (normalize "PHONEPHONE12")) track_id_patterns
        then 100 else 0))%Z.
Proof.
  split; [vm_compute; lia|]. apply blocklist_penalty_per_distinct_word. vm_compute. lia.
Defined.

Example two_distinct_bad_words : score_plate_candidate "HONDACITY12" =
  (score_bonuses "HONDACITY12" - 100)%Z /\ score_plate_candidate "HONDABUS123" =
  (score_bonuses "HONDABUS123" - 200)%Z.
Proof. split; reflexivity. Qed.

Lemma score_short (text : string) :
  (String.length (normalize text) < 6)%nat -> score_plate_candidate text = (-50)%Z.
Proof.
  intros H. unfold score_plate_candidate.
  replace (String.length (normalize text) <? 6)%nat with true
    by (symmetry; apply Nat.ltb_lt; lia). done.
Qed.

(** C4 (as stated, refuted): the caller's weighting lifts a short
    fragment above -50: "AB12" read with confidence 0.5 gets -35. *)
Lemma short_text_weighted_le_minus50_false :
  ~ (forall text conf, (0 <= conf <= 1)%Q ->
       (String.length (normalize text) < 6)%nat ->
       (weighted_score text conf <= -50)%Q).
Proof.
  intros H. specialize (H "AB12" (1 # 2)).
  assert (Hc : (0 <= 1 # 2 <= 1)%Q) by (split; vm_compute; discriminate).
  specialize (H Hc ltac:(vm_compute; lia)). vm_compute in H. apply H. reflexivity.
Qed.

(** C4 (amended): a text of normalized length below 6 scores exactly -50
    (no other bonus or penalty applies); with the caller's weighting
    [conf * 30] for an engine confidence in [0, 1] the combined score
    lies in [-50, -20], so it is never positive. *)
Theorem short_text_score (text : string) (conf : Q) :
  (String.length (normalize text) < 6)%nat -> (0 <= conf <= 1)%Q ->
  score_plate_candidate text = (-50)%Z /\
  (-50 <= weighted_score text conf <= -20)%Q /\
  ~ (0 < weighted_score text conf)%Q.
Proof.
  intros Hlen [H0 H1]. pose proof (score_short text Hlen) as Hs.
  unfold weighted_score. rewrite Hs. split; [done|].
  assert (Hw : (-50 <= inject_Z (-50) + conf * 30 <= -20)%Q).
  { unfold Qle, Qplus, Qmult in *. cbn in *. split; nia. }
  split; [done|]. intros Hpos. destruct Hw as [_ Hw].
  apply (Qlt_irrefl 0). eapply Qlt_le_trans; [exact Hpos|].
  eapply Qle_trans; [exact Hw|]. vm_compute. discriminate.
Qed.

Lemma short_text_score_witness :
  ((String.length (normalize "AB12") < 6)%nat /\ (0 <= 9 # 10 <= 1)%Q) /\
  (score_plate_candidate "AB12" = (-50)%Z /\
   (-50 <= weighted_score "AB12" (9 # 10) <= -20)%Q /\
   ~ (0 < weighted_score "AB12" (9 # 10))%Q).
Proof.
  split; [split; [vm_compute; lia|split; vm_compute; discriminate]|].
  apply short_text_score; [vm_compute; lia|split; vm_compute; discriminate].
Defined.

(** ** Plate region crop *)

Lemma py_int_nonneg (q : Q) : (0 <= q)%Q -> (0 <= py_int q)%Z.
Proof.
  intros H. unfold Qle in H. cbn in H. unfold py_int.
  apply Z.quot_pos; lia.
Qed.

Lemma pad_nonneg (len : Z) (padding : Q) :
  (0 <= len)%Z -> (0 <= padding)%Q -> (0 <= py_int (inject_Z len * padding))%Z.
Proof.
  intros Hl Hp. apply py_int_nonneg.
  apply Qmult_le_0_compat; [|done]. unfold Qle. cbn. lia.
Qed.

Lemma slice_norm_range (n i : Z) : (0 <= n)%Z -> (0 <= slice_norm n i <= n)%Z.
Proof. intros Hn. unfold slice_norm. destruct (Z.ltb_spec i 0); lia. Qed.

Lemma slice_norm_in (n i : Z) : (0 <= i)%Z -> slice_norm n i = Z.min i n.
Proof. intros Hi. unfold slice_norm. destruct (Z.ltb_spec i 0); lia. Qed.

(** C8 (as stated, refuted): a rectangle lying wholly left of the image
    gives a negative right bound [x2], which numpy reads from the end of
    the axis: for a 200x100 image and the rectangle x=-50, y=0, 10x10
    (padding 0) the crop holds pixel (0, 0), which is outside the
    expanded rectangle. *)
Lemma crop_clamps_every_rectangle_false :
  ~ (forall img r padding,
       (0 < img_h img)%Z -> (0 < img_w img)%Z -> (0 <= padding)%Q ->
       forall i j, crop_plate_region img r padding i j <->
                   in_image img i j /\ in_expanded r padding i j).
Proof.
  intros H.
  specialize (H (Image 100 200 "") (Region (-50) 0 10 10) 0%Q ltac:(reflexivity) ltac:(reflexivity)
                ltac:(vm_compute; discriminate) 0%Z 0%Z).
  assert (Hc : crop_plate_region (Image 100 200 "") (Region (-50) 0 10 10) 0%Q 0 0).
  { unfold crop_plate_region, in_slice. vm_compute. repeat split; (discriminate || reflexivity). }
  apply H in Hc. destruct Hc as [_ [_ Hj]]. vm_compute in Hj. destruct Hj as [_ Hj]. discriminate Hj.

Qed.

(** C8 (amended): for an image of positive size, any rectangle and any
    padding fraction [>= 0], the crop never holds a pixel outside the
    image and its left/top bounds are [>= 0] and its right/bottom bounds
    are [<= width/height]; for a rectangle of non-negative position and
    size (the rectangles the heuristic locator produces), the crop is
    exactly the padding-expanded rectangle clamped to the image. The
    heuristic region of a 200x100 image is x=30, y=25, 140x50 (x in
    [30,170], y in [25,75]) and its padded crop is rows 20..80, columns
    16..184. *)
Theorem crop_within_image (img : image) (r : region) (padding : Q) :
  (0 < img_h img)%Z -> (0 < img_w img)%Z -> (0 <= padding)%Q ->
  (0 <= x1 (crop_bounds img r padding) /\ 0 <= y1 (crop_bounds img r padding) /\
   x2 (crop_bounds img r padding) <= img_w img /\
   y2 (crop_bounds img r padding) <= img_h img)%Z /\
  (forall i j, crop_plate_region img r padding i j -> in_image img i j) /\
  ((0 <= rx r)%Z -> (0 <= ry r)%Z -> (0 <= rwidth r)%Z -> (0 <= rheight r)%Z ->
   forall i j, crop_plate_region img r padding i j <->
               in_image img i j /\ in_expanded r padding i j) /\
  (forall d, detect_plate_region_heuristic (Image 100 200 d) = Region 30 25 140 50 /\
             crop_bounds (Image 100 200 d) (Region 30 25 140 50) (1 # 10)
             = Bounds 20 80 16 184).
Proof.
  intros Hh Hw Hp. unfold crop_plate_region, in_slice, in_image, in_expanded, crop_bounds.
  cbn [x1 x2 y1 y2]. split; [lia|]. split; [|split].
  - intros i j [Hi Hj].
    pose proof (slice_norm_range (img_h img) (Z.max 0 (ry r - py_int (inject_Z (rheight r) * padding))) ltac:(lia)).
    pose proof (slice_norm_range (img_h img) (Z.min (img_h img) (ry r + rheight r + py_int (inject_Z (rheight r) * padding))) ltac:(lia)).
    pose proof (slice_norm_range (img_w img) (Z.max 0 (rx r - py_int (inject_Z (rwidth r) * padding))) ltac:(lia)).
    pose proof (slice_norm_range (img_w img) (Z.min (img_w img) (rx r + rwidth r + py_int (inject_Z (rwidth r) * padding))) ltac:(lia)).
    lia.
  - intros Hx Hy Hrw Hrh i j.
    pose proof (pad_nonneg (rwidth r) padding Hrw Hp).
    pose proof (pad_nonneg (rheight r) padding Hrh Hp).
    rewrite !slice_norm_in by lia. lia.
  - intros d. split; reflexivity.
Qed.

Lemma crop_within_image_witness :
  ((0 < img_h (Image 100 200 ""))%Z /\ (0 < img_w (Image 100 200 ""))%Z /\ (0 <= 1 # 10)%Q) /\
  let img := Image 100 200 "" in
  let r := detect_plate_region_heuristic img in
  (0 <= x1 (crop_bounds img r (1 # 10)) /\ 0 <= y1 (crop_bounds img r (1 # 10)) /\
   x2 (crop_bounds img r (1 # 10)) <= img_w img /\
   y2 (crop_bounds img r (1 # 10)) <= img_h img)%Z /\
  (forall i j, crop_plate_region img r (1 # 10) i j -> in_image img i j) /\
  ((0 <= rx r)%Z -> (0 <= ry r)%Z -> (0 <= rwidth r)%Z -> (0 <= rheight r)%Z ->
   forall i j, crop_plate_region img r (1 # 10) i j <->
               in_image img i j /\ in_expanded r (1 # 10) i j) /\
  (forall d, detect_plate_region_heuristic (Image 100 200 d) = Region 30 25 140 50 /\
             crop_bounds (Image 100 200 d) (Region 30 25 140 50) (1 # 10)
             = Bounds 20 80 16 184).
Proof.
  split; [split; [cbn; lia|split; [cbn; lia|vm_compute; discriminate]]|].
  apply crop_within_image; [cbn; lia|cbn; lia|vm_compute; discriminate].
Defined.

(** ** Closed forms of the pipeline stages *)

Lemma world_eta (w : world) : {| w_votes := w_votes w; w_calls := w_calls w |} = w.
Proof. by destruct w. Qed.

Lemma maybe_vote_eq (tid : string) (o : option string) (w : world) :
  maybe_vote tid o w = ({| w_votes := votes_after (w_votes w) tid o; w_calls := w_calls w |}, inr tt).
Proof.
  unfold maybe_vote, votes_after. destruct o as [p|]; [|by rewrite world_eta].
  destruct (truthy (Some p) && negb (String.eqb tid MANUAL_SCAN)); [done|].
  by rewrite world_eta.
Qed.

Lemma gemini_read_eq (E : env) (img : image) (w : world) :
  gemini_read E img w =
  ({| w_votes := w_votes w; w_calls := w_calls w ++ [CallGemini] |}, inr (gemini_outcome E img)).
Proof.
  unfold gemini_read, gemini_outcome, gemini_cleaned, try_except, bind, log_call, ret, throw.
  destruct (gemini_text E img) as [raw|]; [|done].
  destruct (_ && _ && _); [|done]. by destruct (0 <? _)%Z.
Qed.

Lemma run_two_stage_eq (E : env) (img : image) (tid : string) (w : world) :
  exists res,
  run_two_stage_ocr E img tid w =
  ({| w_votes := votes_after (w_votes w) tid (r_plate res);
      w_calls := w_calls w ++ easyocr_calls E img |}, inr res).
Proof.
  unfold run_two_stage_ocr, easyocr_calls. cbv zeta. fold (pipeline_crop img).
  unfold try_except, get_ocr_reader, readtext_call, bind, ret, throw, log_call.
  destruct (easyocr_installed E);
    [destruct (readtext E img (OnCrop (pipeline_crop img))) as [[|f fs]|];
       [destruct (readtext E img OnFull) as [[|g gs]|]| |]|];
    try destruct (best_candidate _) as [[bp bs] bc];
    cbn -[maybe_vote best_candidate pipeline_crop];
    rewrite ?maybe_vote_eq; cbn -[pipeline_crop votes_after];
    match goal with |- exists res, (_, inr ?r) = _ => exists r end;
    rewrite <- ?app_assoc, ?app_nil_r; first [reflexivity | destruct w; reflexivity].
Qed.


(** The endpoint on a request whose image decodes: Gemini (when a key is
    set), the EasyOCR pipeline when Gemini gave nothing truthy, the vote
    for the instant plate, then the consensus. *)
Lemma endpoint_decoded (E : env) (data : request) (w : world) (img : image) :
  genai_installed E = true -> req_image data <> "" ->
  decode E (strip_data_url (req_image data)) = Some img ->
  exists res,
  let tid := req_trackId data in
  let g := if gemini_api_key E then gemini_outcome E img else (None, 0%Z, "none") in
  let calls1 := w_calls w ++ (if gemini_api_key E then [CallGemini] else []) in
  let f := if truthy (fst (fst g)) then g else (r_plate res, r_conf res, "EasyOCR") in
  let votes1 := if truthy (fst (fst g)) then w_votes w
                else votes_after (w_votes w) tid (r_plate res) in
  let calls2 := if truthy (fst (fst g)) then calls1 else calls1 ++ easyocr_calls E img in
  let votes2 := votes_after votes1 tid (fst (fst f)) in
  let c := if req_useTemporal data && negb (String.eqb tid MANUAL_SCAN)
           then get_consensus_plate votes2 tid else (None, 0%Q) in
  let final_plate := if Qle_bool 50 (snd c) then fst c else fst (fst f) in
  read_plate_from_base64 E data w =
  ({| w_votes := votes2; w_calls := calls2 |},
   Ok200 {| success := match final_plate with Some _ => true | None => false end;
            trackId := tid;
            plate := final_plate;
            confidence := if truthy (fst c) then py_int (snd c) else snd (fst f);
            instantPlate := fst (fst f);
            instantConfidence := snd (fst f);
            consensusVotes := snd c;
            engine := snd f |}).
Proof.
  intros Hg Hi Hd.
  set (w1 := if gemini_api_key E
             then {| w_votes := w_votes w; w_calls := w_calls w ++ [CallGemini] |} else w).
  destruct (run_two_stage_eq E img (req_trackId data) w1) as [res Hres].
  exists res. cbv zeta.
  unfold read_plate_from_base64, read_plate_body. rewrite Hg. cbn [negb].
  unfold try_except. rewrite (proj2 (String.eqb_neq _ _) Hi), Hd.
  unfold bind at 1.
  assert (Hgw : (if gemini_api_key E then gemini_read E img else ret (None, 0%Z, "none")) w
                = (w1, inr (if gemini_api_key E then gemini_outcome E img
                            else (None, 0%Z, "none")))).
  { unfold w1. destruct (gemini_api_key E); [apply gemini_read_eq|by destruct w]. }
  rewrite Hgw. clear Hgw.
  destruct (if gemini_api_key E then gemini_outcome E img else (None, 0%Z, "none"))
    as [[p0 c0] e0] eqn:Hgo.
  cbn [fst snd]. destruct (truthy p0) eqn:Ht; cbn [negb].
  - unfold bind at 1, ret at 1. unfold bind at 1. rewrite maybe_vote_eq.
    unfold w1. destruct (req_useTemporal data && negb (String.eqb (req_trackId data) MANUAL_SCAN));
      unfold consensus, bind, ret; cbn [fst snd w_votes w_calls];
      destruct (gemini_api_key E); cbn [w_votes w_calls]; rewrite ?app_nil_r;
      try destruct (get_consensus_plate _ _) as [cp cc]; reflexivity.
  - unfold bind at 1. unfold bind at 1. rewrite Hres. unfold ret at 1.
    unfold bind at 1. rewrite maybe_vote_eq.
    unfold w1. destruct (req_useTemporal data && negb (String.eqb (req_trackId data) MANUAL_SCAN));
      unfold consensus, bind, ret; cbn [fst snd w_votes w_calls];
      destruct (gemini_api_key E); cbn [w_votes w_calls]; rewrite ?app_nil_r;
      try destruct (get_consensus_plate _ _) as [cp cc]; reflexivity.
Qed.

Lemma endpoint_rejected (E : env) (data : request) (w : world) :
  genai_installed E = true ->
  (req_image data = "" \/ decode E (strip_data_url (req_image data)) = None) ->
  read_plate_from_base64 E data w = (w, HttpError 500).
Proof.
  intros Hg Hr. unfold read_plate_from_base64, read_plate_body. rewrite Hg. cbn [negb].
  unfold try_except, throw. destruct Hr as [-> | Hd]; [done|].
  destruct (String.eqb (req_image data) ""); [done|]. by rewrite Hd.
Qed.

Lemma endpoint_no_genai (E : env) (data : request) (w : world) :
  genai_installed E = false -> read_plate_from_base64 E data w = (w, HttpError 500).
Proof. intros Hg. unfold read_plate_from_base64, read_plate_body. by rewrite Hg. Qed.

Lemma votes_after_manual (st : votes_store) (o : option string) :
  votes_after st MANUAL_SCAN o = st.
Proof. unfold votes_after. destruct o; [|done]. by rewrite andb_false_r. Qed.

Lemma votes_after_some (st : votes_store) (tid p : string) :
  tid <> MANUAL_SCAN -> votes_after st tid (Some p) = add_temporal_vote st tid p.
Proof.
  intros Hm. unfold votes_after, truthy.
  rewrite (proj2 (String.eqb_neq _ _) Hm). cbn [negb].
  destruct (String.eqb_spec p "") as [->|]; done.
Qed.



(** Every response that is not a 200 comes from the two rejection paths. *)
Lemma endpoint_cases (E : env) (data : request) (w : world) :
  read_plate_from_base64 E data w = (w, HttpError 500) \/
  exists img, genai_installed E = true /\ req_image data <> "" /\
              decode E (strip_data_url (req_image data)) = Some img.
Proof.
  destruct (genai_installed E) eqn:Hg; [|left; by apply endpoint_no_genai].
  destruct (String.eqb_spec (req_image data) "") as [He|Hi].
  { left. apply endpoint_rejected; auto. }
  destruct (decode E (strip_data_url (req_image data))) as [img|] eqn:Hd.
  - right. by exists img.
  - left. apply endpoint_rejected; auto.
Qed.

(** C6 (confirmed). For a tracked object with temporal voting on, the
    reported plate is the consensus over the updated buffer when the
    consensus percentage is at least 50, and the single-frame plate
    otherwise. *)
Theorem consensus_preferred_over_instant (E : env) (data : request) (w : world) :
  req_useTemporal data = true -> req_trackId data <> MANUAL_SCAN ->
  match read_plate_from_base64 E data w with
  | (w', Ok200 b) =>
      let c := get_consensus_plate (w_votes w') (req_trackId data) in
      consensusVotes b = snd c /\
      ((50 <= snd c)%Q -> plate b = fst c) /\
      ((snd c < 50)%Q -> plate b = instantPlate b)
  | (_, HttpError _) => True
  end.
Proof.
  intros Ht Hm.
  destruct (endpoint_cases E data w) as [-> | (img & Hg & Hi & Hd)]; [done|].
  destruct (endpoint_decoded E data w img Hg Hi Hd) as [res Hres]. cbv zeta in Hres.
  rewrite Hres. clear Hres. cbn [w_votes consensusVotes plate instantPlate].
  rewrite Ht, (proj2 (String.eqb_neq _ _) Hm). cbn [andb negb].
  destruct (get_consensus_plate _ _) as [cp cc]. cbn [fst snd].
  split; [done|split].
  - intros H. apply Qle_bool_iff in H. by rewrite H.
  - intros H. destruct (Qle_bool 50 cc) eqn:Hq; [|done].
    apply Qle_bool_iff in Hq. exfalso. by apply (Qlt_not_le cc 50).
Qed.

(** C9 (confirmed). With the track id "manual-scan" no vote buffer changes,
    for any track id, and a 200 response reports the single-frame plate and
    confidence with no consensus votes. *)
Theorem manual_scan_untouched (E : env) (data : request) (w : world) :
  req_trackId data = MANUAL_SCAN ->
  w_votes (fst (read_plate_from_base64 E data w)) = w_votes w /\
  match snd (read_plate_from_base64 E data w) with
  | Ok200 b => plate b = instantPlate b /\ confidence b = instantConfidence b /\
               consensusVotes b = 0%Q
  | HttpError _ => True
  end.
Proof.
  intros Hm.
  destruct (endpoint_cases E data w) as [-> | (img & Hg & Hi & Hd)]; [done|].
  destruct (endpoint_decoded E data w img Hg Hi Hd) as [res Hres]. cbv zeta in Hres.
  rewrite Hres. clear Hres. cbn [fst snd w_votes plate instantPlate confidence
                               instantConfidence consensusVotes].
  rewrite Hm, !votes_after_manual. cbn [String.eqb negb andb].
  rewrite andb_false_r. cbn [fst snd truthy].
  split; [by destruct (truthy _)|]. done.
Qed.

(** C10 (confirmed). For a tracked id and an accepted plate [p], the
    EasyOCR path adds [p] to the track's buffer twice in one request (once
    in the two-stage pipeline, once in the endpoint); the Gemini path adds it
    once. *)
Theorem easyocr_path_votes_twice (E : env) (data : request) (w : world) :
  req_trackId data <> MANUAL_SCAN ->
  match read_plate_from_base64 E data w with
  | (w', Ok200 b) =>
      forall p, instantPlate b = Some p ->
      (engine b = "EasyOCR" ->
         w_votes w' = add_temporal_vote (add_temporal_vote (w_votes w) (req_trackId data) p)
                                        (req_trackId data) p) /\
      (engine b = "Gemini Vision" ->
         w_votes w' = add_temporal_vote (w_votes w) (req_trackId data) p)
  | (_, HttpError _) => True
  end.
Proof.
  intros Hm.
  destruct (endpoint_cases E data w) as [-> | (img & Hg & Hi & Hd)]; [done|].
  destruct (endpoint_decoded E data w img Hg Hi Hd) as [res Hres]. cbv zeta in Hres.
  rewrite Hres. clear Hres. cbn [w_votes instantPlate engine].
  intros p.
  destruct (truthy (fst (fst (if gemini_api_key E then gemini_outcome E img
                                else (None, 0%Z, "none"))))) eqn:Htr.
  - destruct (if gemini_api_key E then gemini_outcome E img else (None, 0%Z, "none"))
      as [[gp gc] ge] eqn:Hgo. cbn [fst snd] in *.
    intros ->. rewrite votes_after_some by done.
    split; [|done]. intros He.
    destruct (gemini_api_key E); [|discriminate Hgo].
    unfold gemini_outcome in Hgo.
    destruct (gemini_text E img); [|discriminate Hgo].
    repeat match type of Hgo with
      | context [if ?b then _ else _] => destruct b
      end; congruence.
  - cbn [fst snd]. intros Hp. rewrite Hp, !votes_after_some by done.
    split; [done|discriminate].
Qed.

(** C7 (counterexample). A request with an empty image is not answered with
    a 4xx status: the [HTTPException(400)] raised in the [try] block is caught
    by [except Exception] and re-raised as a 500. *)
Lemma empty_image_client_error_false :
  ~ (forall (E : env) (data : request) (w : world),
       genai_installed E = true ->
       (req_image data = "" \/ decode E (strip_data_url (req_image data)) = None) ->
       exists c, snd (read_plate_from_base64 E data w) = HttpError c /\ (400 <= c < 500)%Z).
Proof.
  intros H.
  destruct (H (sample_env (Some "NONE") (Some []) (Some [])) request_without_image
              empty_world eq_refl (or_introl eq_refl)) as (c & Hc & Hr).
  vm_compute in Hc. injection Hc as <-. lia.
Qed.

(** C7 (the code as written). With the Gemini client library importable: a
    request with an empty image or with data that does not decode gets an
    HTTP error response, and the OCR pipeline is never entered (no engine
    call, no vote: the state is unchanged); data that does not decode gets
    status 500; every request whose image decodes gets a 200 body, whether
    or not a plate was found. *)
Theorem input_errors_rejected_before_pipeline (E : env) (data : request) (w : world) :
  genai_installed E = true ->
  ((req_image data = "" \/ decode E (strip_data_url (req_image data)) = None) ->
     fst (read_plate_from_base64 E data w) = w /\
     exists c, snd (read_plate_from_base64 E data w) = HttpError c) /\
  (req_image data <> "" -> decode E (strip_data_url (req_image data)) = None ->
     snd (read_plate_from_base64 E data w) = HttpError 500) /\
  (forall img, req_image data <> "" -> decode E (strip_data_url (req_image data)) = Some img ->
     exists b, snd (read_plate_from_base64 E data w) = Ok200 b).
Proof.
  intros Hg. split; [|split].
  - intros Hr. rewrite (endpoint_rejected E data w Hg Hr). split; [done|]. by exists 500%Z.
  - intros Hi Hd. by rewrite (endpoint_rejected E data w Hg (or_intror Hd)).
  - intros img Hi Hd.
    destruct (endpoint_decoded E data w img Hg Hi Hd) as [res Hres]. cbv zeta in Hres.
    rewrite Hres. eexists. reflexivity.
Qed.

(** The fallback scenario: Gemini says "NONE", EasyOCR reads MH12AB4567 on
    the crop; the reading is voted twice, so the consensus is 100%. *)
Example fallback_scenario :
  read_plate_from_base64 fallback_env sample_request empty_world =
  ({| w_votes := <["car-1" := ["MH12AB4567"; "MH12AB4567"]]> ∅;
      w_calls := [CallGemini; CallReadtext (OnCrop (Bounds 20 80 16 184))] |},
   Ok200 {| success := true; trackId := "car-1"; plate := Some "MH12AB4567";
            confidence := 100; instantPlate := Some "MH12AB4567";
            instantConfidence := 88; consensusVotes := 200 # 2 (* = 100 *);
            engine := "EasyOCR" |}).
Proof. vm_compute. reflexivity. Qed.


Lemma consensus_preferred_over_instant_witness :
  req_useTemporal sample_request = true /\ req_trackId sample_request <> MANUAL_SCAN /\
  match read_plate_from_base64 gemini_env sample_request empty_world with
  | (w', Ok200 b) =>
      let c := get_consensus_plate (w_votes w') (req_trackId sample_request) in
      consensusVotes b = snd c /\
      ((50 <= snd c)%Q -> plate b = fst c) /\
      ((snd c < 50)%Q -> plate b = instantPlate b)
  | (_, HttpError _) => True
  end.
Proof.
  split; [reflexivity|split; [discriminate|]].
  apply (consensus_preferred_over_instant gemini_env sample_request empty_world);
    [reflexivity|discriminate].
Defined.

Lemma input_errors_rejected_before_pipeline_witness :
  genai_installed fallback_env = true /\
  ((req_image request_without_image = "" \/
    decode fallback_env (strip_data_url (req_image request_without_image)) = None) ->
     fst (read_plate_from_base64 fallback_env request_without_image empty_world) = empty_world /\
     exists c, snd (read_plate_from_base64 fallback_env request_without_image empty_world)
               = HttpError c) /\
  (req_image request_without_image <> "" ->
     decode fallback_env (strip_data_url (req_image request_without_image)) = None ->
     snd (read_plate_from_base64 fallback_env request_without_image empty_world) = HttpError 500) /\
  (forall img, req_image request_without_image <> "" ->
     decode fallback_env (strip_data_url (req_image request_without_image)) = Some img ->
     exists b, snd (read_plate_from_base64 fallback_env request_without_image empty_world)
               = Ok200 b).
Proof.
  split; [reflexivity|].
  apply (input_errors_rejected_before_pipeline fallback_env request_without_image empty_world).
  reflexivity.
Defined.

Lemma manual_scan_untouched_witness :
  req_trackId manual_request = MANUAL_SCAN /\
  w_votes (fst (read_plate_from_base64 fallback_env manual_request empty_world))
    = w_votes empty_world /\
  match snd (read_plate_from_base64 fallback_env manual_request empty_world) with
  | Ok200 b => plate b = instantPlate b /\ confidence b = instantConfidence b /\
               consensusVotes b = 0%Q
  | HttpError _ => True
  end.
Proof.
  split; [reflexivity|].
  apply (manual_scan_untouched fallback_env manual_request empty_world). reflexivity.
Defined.

Lemma easyocr_path_votes_twice_witness :
  req_trackId sample_request <> MANUAL_SCAN /\
  match read_plate_from_base64 fallback_env sample_request empty_world with
  | (w', Ok200 b) =>
      forall p, instantPlate b = Some p ->
      (engine b = "EasyOCR" ->
         w_votes w' = add_temporal_vote
                        (add_temporal_vote (w_votes empty_world) (req_trackId sample_request) p)
                        (req_trackId sample_request) p) /\
      (engine b = "Gemini Vision" ->
         w_votes w' = add_temporal_vote (w_votes empty_world) (req_trackId sample_request) p)
  | (_, HttpError _) => True
  end.
Proof.
  split; [discriminate|].
  apply (easyocr_path_votes_twice fallback_env sample_request empty_world). discriminate.
Defined.

(* ================================================================== *)
(** ** Further properties of the route *)

(** *** Scoring *)

Lemma score_bonuses_le (cleaned : string) : (score_bonuses cleaned <= 150)%Z.
Proof.
  unfold score_bonuses.
  repeat match goal with |- context [if ?b then _ else _] => destruct b end; lia.
Qed.

(** The score of any text is at most 150 (all four bonuses, no penalty). *)
Theorem score_at_most_150 (text : string) : (score_plate_candidate text <= 150)%Z.
Proof.
  unfold score_plate_candidate.
  destruct (String.length (normalize text) <? 6)%nat; [lia|].
  unfold track_id_step, bad_word_step. rewrite bad_word_fold.
  pose proof (score_bonuses_le (normalize text)).
  destruct (existsb _ _); lia.
Qed.

Lemma upper_char_idem (c : ascii) : upper_char (upper_char c) = upper_char c.
Proof. destruct c as [[] [] [] [] [] [] [] []]; reflexivity. Qed.

Lemma upper_char_not_lower (c : ascii) : is_lower (upper_char c) = false.
Proof. destruct c as [[] [] [] [] [] [] [] []]; reflexivity. Qed.

Lemma upper_char_space (c : ascii) : upper_char c = " "%char -> c = " "%char.
Proof. destruct c as [[] [] [] [] [] [] [] []]; cbv; congruence. Qed.

Lemma str_filter_sub (p q : ascii -> bool) (s : string) :
  forallb q (list_ascii_of_string s) = true ->
  forallb q (list_ascii_of_string (str_filter p s)) = true.
Proof.
  induction s as [|c s IH]; cbn; [done|].
  intros [Hc Hs]%andb_true_iff. destruct (p c); cbn; rewrite ?Hc; auto.
Qed.

Lemma str_filter_all (p : ascii -> bool) (s : string) :
  forallb p (list_ascii_of_string (str_filter p s)) = true.
Proof.
  induction s as [|c s IH]; cbn; [done|].
  destruct (p c) eqn:Hc; cbn; rewrite ?Hc; auto.
Qed.

Lemma str_filter_id (p : ascii -> bool) (s : string) :
  forallb p (list_ascii_of_string s) = true -> str_filter p s = s.
Proof.
  induction s as [|c s IH]; cbn; [done|].
  intros [-> Hs]%andb_true_iff. by rewrite IH.
Qed.

Lemma upper_fixed (s : string) :
  forallb (fun c => Ascii.eqb (upper_char c) c) (list_ascii_of_string (upper s)) = true.
Proof.
  induction s as [|c s IH]; cbn; [done|].
  rewrite upper_char_idem, Ascii.eqb_refl. done.
Qed.

Lemma upper_id (s : string) :
  forallb (fun c => Ascii.eqb (upper_char c) c) (list_ascii_of_string s) = true ->
  upper s = s.
Proof.
  induction s as [|c s IH]; cbn; [done|].
  intros [Hc Hs]%andb_true_iff. apply Ascii.eqb_eq in Hc. by rewrite Hc, IH.
Qed.

Lemma normalize_idem (text : string) : normalize (normalize text) = normalize text.
Proof.
  unfold normalize, remove_char.
  set (u := upper text).
  set (r := str_filter (fun c => negb (c =? "-")%char)
              (str_filter (fun c => negb (c =? " ")%char) u)).
  assert (Hu : upper r = r).
  { apply upper_id. unfold r. apply str_filter_sub, str_filter_sub, upper_fixed. }
  rewrite Hu.
  rewrite (str_filter_id (fun c => negb (c =? " ")%char) r);
    [|unfold r; apply str_filter_sub, str_filter_all].
  by rewrite (str_filter_id (fun c => negb (c =? "-")%char) r) by apply str_filter_all.
Qed.

(** Validation and scoring ignore case, spaces and hyphens: a text and
    its normalized form ([text.upper().replace(' ', '').replace('-', '')])
    are validated and scored alike. *)
Theorem scoring_normalization_invariant (text : string) :
  is_indian_plate (normalize text) = is_indian_plate text /\
  score_plate_candidate (normalize text) = score_plate_candidate text.
Proof.
  unfold is_indian_plate, score_plate_candidate. cbv zeta.
  rewrite normalize_idem. done.
Qed.

(** [c{lo,hi}] consumes a prefix of at least [lo] and at most [hi]
    characters of class [c]. *)
Lemma match_rep_spec (c : ascii -> bool) (lo : nat) (hi : option nat)
    (s : list ascii) (k : list ascii -> bool) :
  match_rep c lo hi s k = true ->
  exists s1 s2, s = s1 ++ s2 /\ (lo <= length s1)%nat /\ forallb c s1 = true /\
                (forall h, hi = Some h -> (length s1 <= h)%nat) /\ k s2 = true.
Proof.
  revert lo hi. induction s as [|a s IH]; intros lo hi H; cbn in H.
  - rewrite orb_false_r in H. apply andb_true_iff in H as [Hlo Hk].
    apply Nat.eqb_eq in Hlo. subst. exists [], []. cbn. repeat split; auto; lia.
  - apply orb_true_iff in H as [H|H].
    + apply andb_true_iff in H as [Hlo Hk]. apply Nat.eqb_eq in Hlo. subst.
      exists [], (a :: s). cbn. repeat split; auto; lia.
    + apply andb_true_iff in H as [H Hm]. apply andb_true_iff in H as [Ha Hh].
      destruct (IH _ _ Hm) as (s1 & s2 & -> & Hl & Hc & Hb & Hk).
      exists (a :: s1), s2. cbn. rewrite Ha, Hc. repeat split; auto; [lia|].
      intros h ->. cbn in Hh, Hb. destruct h as [|h]; [discriminate|].
      specialize (Hb h eq_refl). lia.
Qed.

(** A repetition with a positive lower bound finds a character of its
    class in any string the pattern matches. *)
Lemma match_seq_class (rs : list rep) (s : list ascii) (r : rep) :
  match_seq rs s = true -> In r rs -> (1 <= rep_lo r)%nat ->
  existsb (rep_cls r) s = true.
Proof.
  revert s. induction rs as [|r' rs IH]; intros s H Hin Hlo; [done|].
  cbn in H. apply match_rep_spec in H as (s1 & s2 & -> & Hl & Hc & _ & Hk).
  rewrite existsb_app. apply orb_true_iff.
  destruct Hin as [<-|Hin].
  - left. destruct s1 as [|a s1]; cbn in Hl; [lia|].
    cbn in Hc |- *. apply andb_true_iff in Hc as [-> _]. done.
  - right. by apply IH.
Qed.

Lemma match_seq_AZ2 (rs : list rep) (s : list ascii) :
  match_seq (Rep AZ 2 (Some 2) :: rs) s = true ->
  exists a b s', s = a :: b :: s' /\ is_upper a = true /\ is_upper b = true.
Proof.
  cbn. intros H. apply match_rep_spec in H as (s1 & s2 & -> & Hl & Hc & Hb & _).
  specialize (Hb 2%nat eq_refl).
  destruct s1 as [|a [|b [|x s1]]]; cbn in Hl, Hb; try lia.
  cbn in Hc. unfold AZ in Hc. apply andb_true_iff in Hc as [Ha Hc].
  apply andb_true_iff in Hc as [Hb' _]. by exists a, b, s2.
Qed.

Lemma state_code_upper (a b : ascii) (rest : string) :
  str_mem (first2 (String a (String b rest))) validator_state_codes = true ->
  is_upper a = true /\ is_upper b = true.
Proof.
  unfold str_mem, first2. cbn [substring]. intros H.
  apply existsb_eqb_In in H. cbn in H.
  repeat (destruct H as [H|H]; [injection H as <- <-; split; reflexivity|]). done.
Qed.

(** Every text accepted as an Indian plate starts, once normalized, with
    two letters A-Z and contains a digit. *)
Theorem indian_plate_shape (text : string) :
  is_indian_plate text = true ->
  exists a b rest, normalize text = String a (String b rest) /\
    is_upper a = true /\ is_upper b = true /\ str_any isdigit (normalize text) = true.
Proof.
  unfold is_indian_plate. cbv zeta. set (c := normalize text). clearbody c.
  intros [H|H]%orb_true_iff.
  - apply existsb_exists in H as [pat [Hin Hm]].
    unfold re_match in Hm.
    assert (Hd : exists r, In r pat /\ rep_cls r = isdigit /\ (1 <= rep_lo r)%nat).
    { cbn in Hin.
      repeat (destruct Hin as [<-|Hin];
              [first [solve [exists (Rep isdigit 1 (Some 4));
                             split; [cbn; repeat first [left; reflexivity | right]
                                    | split; [reflexivity | cbn; lia]]]
                     | solve [exists (Rep isdigit 4 (Some 4));
                             split; [cbn; repeat first [left; reflexivity | right]
                                    | split; [reflexivity | cbn; lia]]]]|]).
      done. }
    destruct Hd as (r & Hr & Hcls & Hlo).
    pose proof (match_seq_class _ _ _ Hm Hr Hlo) as Hdig. rewrite Hcls in Hdig.
    assert (Hpat : exists rs, pat = Rep AZ 2 (Some 2) :: rs).
    { cbn in Hin. repeat (destruct Hin as [<-|Hin]; [eexists; reflexivity|]). done. }
    destruct Hpat as [rs ->].
    apply match_seq_AZ2 in Hm as (a & b & s' & Hs & Ha & Hb).
    destruct c as [|a' [|b' rest]]; cbn in Hs; try discriminate.
    injection Hs as -> -> _. exists a, b, rest. by repeat split.
  - apply andb_true_iff in H as [H Hdig]. apply andb_true_iff in H as [Hlen Hst].
    destruct c as [|a [|b rest]]; cbn in Hlen; try discriminate.
    apply state_code_upper in Hst as [Ha Hb]. exists a, b, rest. by repeat split.
Qed.

(** *** The two-stage pipeline *)

Lemma run_two_stage_closed (E : env) (img : image) (tid : string) (w : world) :
  run_two_stage_ocr E img tid w =
  ({| w_votes := votes_after (w_votes w) tid (r_plate (two_stage_result E img));
      w_calls := w_calls w ++ easyocr_calls E img |}, inr (two_stage_result E img)).
Proof.
  unfold run_two_stage_ocr, easyocr_calls, two_stage_result, two_stage_results. cbv zeta.
  fold (pipeline_crop img).
  unfold try_except, get_ocr_reader, readtext_call, bind, ret, throw, log_call.
  destruct (easyocr_installed E);
    [destruct (readtext E img (OnCrop (pipeline_crop img))) as [[|f fs]|];
       [destruct (readtext E img OnFull) as [[|g gs]|]| |]|];
    try destruct (best_candidate _) as [[bp bs] bc];
    cbn -[maybe_vote best_candidate pipeline_crop];
    rewrite ?maybe_vote_eq; cbn -[pipeline_crop votes_after];
    rewrite <- ?app_assoc, ?app_nil_r; first [reflexivity | destruct w; reflexivity].
Qed.

Lemma forallb_mono (p q : ascii -> bool) (l : list ascii) :
  (forall c, p c = true -> q c = true) -> forallb p l = true -> forallb q l = true.
Proof.
  intros Hpq. induction l as [|c l IH]; cbn; [done|].
  intros [Hc Hl]%andb_true_iff. rewrite (Hpq c Hc). auto.
Qed.

Lemma upper_not_lower (s : string) :
  forallb (fun c => negb (is_lower c)) (list_ascii_of_string (upper s)) = true.
Proof. induction s as [|c s IH]; cbn; [done|]. by rewrite upper_char_not_lower. Qed.

(** The text [run_two_stage_ocr] keeps from a fragment. *)
Lemma cleaned_normal (text : string) :
  let p := str_filter isalnum (upper text) in
  forallb (fun c => isalnum c && negb (is_lower c)) (list_ascii_of_string p) = true /\
  normalize p = p.
Proof.
  cbv zeta. set (p := str_filter isalnum (upper text)).
  assert (Hup : forallb (fun c => Ascii.eqb (upper_char c) c) (list_ascii_of_string p) = true)
    by apply str_filter_sub, upper_fixed.
  assert (Hal : forallb isalnum (list_ascii_of_string p) = true) by apply str_filter_all.
  assert (Hnl : forallb (fun c => negb (is_lower c)) (list_ascii_of_string p) = true)
    by apply str_filter_sub, upper_not_lower.
  split.
  - clear Hup. induction (list_ascii_of_string p) as [|c l IH]; cbn in *; [done|].
    apply andb_true_iff in Hal as [-> Hal]. apply andb_true_iff in Hnl as [-> Hnl]. auto.
  - unfold normalize, remove_char. rewrite (upper_id p Hup).
    assert (Hns : forall ch, isalnum ch = false ->
              forallb (fun c => negb (c =? ch)%char) (list_ascii_of_string p) = true).
    { intros ch Hch. apply (forallb_mono isalnum); [|done].
      intros c Hc. destruct (Ascii.eqb_spec c ch); [subst; congruence|done]. }
    rewrite (str_filter_id _ p (Hns " "%char eq_refl)).
    by rewrite (str_filter_id _ p (Hns "-"%char eq_refl)).
Qed.

Lemma best_candidate_spec (rs : list (string * Q)) : best_inv rs (best_candidate rs).
Proof.
  unfold best_candidate.
  assert (H : forall l acc, best_inv rs acc -> (forall x, In x l -> In x rs) ->
                            best_inv rs (fold_left candidate_step l acc)).
  { induction l as [|fr l IH]; intros acc Hacc Hl; cbn; [done|].
    apply IH; [|intros x Hx; apply Hl; by right].
    destruct acc as [[bp bs] bc], fr as [text conf]. unfold candidate_step.
    destruct (4 <=? String.length (str_filter isalnum (upper text)))%nat; [|done].
    destruct (qlt bs _); [|done].
    exists (text, conf). split; [apply Hl; by left|done]. }
  apply H; [done|auto].
Qed.

Lemma py_int_percent (c : Q) : (0 <= c <= 1)%Q -> (0 <= py_int (c * 100) <= 100)%Z.
Proof.
  destruct c as [n d]. unfold Qle, py_int. cbn. intros [H0 H1].
  assert (Hd : (0 < Z.pos (d * 1))%Z) by lia.
  split.
  - apply Z.quot_pos; lia.
  - apply Z.quot_le_upper_bound; lia.
Qed.

(** Any plate returned by [run_two_stage_ocr] is made of capital letters
    and digits only and has at least 6 characters (a shorter text scores
    -50, and the confidence bonus is at most 30), provided EasyOCR's
    confidences lie in [0, 1]; its reported confidence lies in [0, 100]
    and it is voted for the track (unless the track is "manual-scan").
    When no plate is returned, the confidence is 0 and no vote is cast.
    The pipeline never raises. *)
Theorem two_stage_plate_shape (E : env) (img : image) (tid : string) (w : world) :
  (forall t rs, readtext E img t = Some rs -> Forall (fun fr => (0 <= snd fr <= 1)%Q) rs) ->
  match run_two_stage_ocr E img tid w with
  | (w', inr res) =>
      match r_plate res with
      | Some p =>
          forallb (fun c => isalnum c && negb (is_lower c)) (list_ascii_of_string p) = true /\
          (6 <= String.length p)%nat /\ (0 <= r_conf res <= 100)%Z /\
          w_votes w' = votes_after (w_votes w) tid (Some p)
      | None => r_conf res = 0%Z /\ w_votes w' = w_votes w
      end
  | (_, inl _) => False
  end.
Proof.
  intros Hconf. rewrite run_two_stage_closed. cbn [w_votes].
  assert (Hsrc : forall rs, two_stage_results E img = Some rs ->
                  Forall (fun fr => (0 <= snd fr <= 1)%Q) rs).
  { unfold two_stage_results. intros rs.
    destruct (easyocr_installed E); [|discriminate].
    destruct (readtext E img (OnCrop (pipeline_crop img))) as [[|f fs]|] eqn:Hc;
      try discriminate.
    - intros Hf. by apply (Hconf OnFull).
    - intros [= <-]. by apply (Hconf (OnCrop (pipeline_crop img))). }
  unfold two_stage_result.
  destruct (two_stage_results E img) as [[|f fs]|] eqn:Hr; try (cbn; done).
  pose proof (best_candidate_spec (f :: fs)) as Hb.
  specialize (Hsrc _ eq_refl).
  destruct (best_candidate (f :: fs)) as [[[p|] bs] bc]; cbn in Hb |- *.
  - destruct (qlt 0 bs) eqn:Hq; [|done]. cbn [r_plate r_conf].
    destruct Hb as ([text conf] & Hin & Hp & -> & ->). cbn [fst snd] in *.
    rewrite List.Forall_forall in Hsrc. specialize (Hsrc _ Hin). cbn in Hsrc.
    destruct (cleaned_normal text) as [Hch Hn]. rewrite <- Hp in Hch, Hn.
    assert (Hlen : (6 <= String.length p)%nat).
    { unfold qlt in Hq. apply negb_true_iff in Hq.
      assert (Hle : (0 < weighted_score p conf)%Q).
      { apply Qnot_le_lt. intros Hc. apply Qle_bool_iff in Hc. congruence. }
      destruct (Nat.le_gt_cases 6 (String.length p)) as [|Hs]; [done|exfalso].
      unfold weighted_score, score_plate_candidate in Hle.
      rewrite Hn, (proj2 (Nat.ltb_lt _ _) Hs) in Hle.
      destruct conf as [n d]. unfold Qlt, Qle, Qplus, Qmult, inject_Z in *. cbn in *.
      rewrite ?Pos.mul_1_r, ?Pos.mul_1_l in *. lia. }
    split; [done|split; [done|split; [|done]]].
    unfold truthy. destruct (String.eqb_spec p ""); [rewrite e in Hlen; cbn in Hlen; lia|].
    by apply py_int_percent.
  - by destruct (qlt 0 bs).
Qed.

(** *** The [/ocr/plate] upload endpoint *)

Lemma file_upload_not_manual : "file-upload" <> MANUAL_SCAN.
Proof. discriminate. Qed.

(** A file upload is answered with status 500 when its content type does
    not start with "image/" (the [HTTPException(400)] raised for it is
    caught by [except Exception] and re-raised as a 500) or when its bytes
    do not open as an image; nothing else happens then: no engine call, no
    vote. *)
Theorem upload_rejected (E : env) (open_image : string -> option image)
    (content_type contents : string) (w : world) :
  (String.prefix "image/" content_type = false \/ open_image contents = None) ->
  read_license_plate E open_image content_type contents w = (w, inl (HTTPException 500)).
Proof.
  intros H. unfold read_license_plate, try_except, throw.
  destruct (String.prefix "image/" content_type); [|done].
  destruct H as [H|H]; [discriminate|]. by rewrite H.
Qed.

(** An upload whose content type starts with "image/" and whose bytes open
    as an image is always answered with a body, never an error: its plate
    is the one of the two-stage pipeline and [success] says whether one was
    found; a found plate is voted into the single buffer of the track id
    "file-upload", shared by all uploads, no other buffer changes, and the
    only engine calls are those of the EasyOCR pipeline. *)
Theorem upload_votes_file_upload (E : env) (open_image : string -> option image)
    (content_type contents : string) (w : world) (img : image) :
  String.prefix "image/" content_type = true -> open_image contents = Some img ->
  exists b,
    read_license_plate E open_image content_type contents w =
      ({| w_votes := match u_plate b with
                     | Some p => add_temporal_vote (w_votes w) "file-upload" p
                     | None => w_votes w
                     end;
          w_calls := w_calls w ++ easyocr_calls E img |}, inr b) /\
    u_plate b = r_plate (two_stage_result E img) /\
    u_success b = match u_plate b with Some _ => true | None => false end.
Proof.
  intros Hct Ho. unfold read_license_plate, try_except. rewrite Hct, Ho. cbn [negb].
  unfold bind at 1. rewrite run_two_stage_closed. unfold ret.
  exists {| u_success := match r_plate (two_stage_result E img) with
                         | Some _ => true | None => false end;
            u_plate := r_plate (two_stage_result E img);
            u_confidence := r_conf (two_stage_result E img);
            u_all_text := two_stage_all_text E img |}.
  cbn [u_plate u_success w_votes w_calls]. split; [|done].
  destruct (r_plate (two_stage_result E img)) as [p|]; [|done].
  by rewrite votes_after_some by apply file_upload_not_manual.
Qed.

(** *** The [/ocr/clear-temporal] endpoint *)

(** [/ocr/clear-temporal] with a non-empty [trackId] [t] deletes that
    track's buffer only (its consensus becomes [(None, 0)], every other
    track's is unchanged) and reports [t]; without a body, without a
    [trackId], or with an empty one, it empties every buffer and reports
    "all". *)
Theorem clear_temporal_one_or_all (data : option (gmap string string)) (st : votes_store) :
  let requested := match data with Some d => d !! "trackId" | None => None end in
  let '(st', (ok, cleared)) := clear_temporal data st in
  ok = true /\
  match requested with
  | Some t =>
      (t <> "" ->
         st' = delete t st /\ cleared = t /\ get_consensus_plate st' t = (None, 0%Q) /\
         forall t', t' <> t -> get_consensus_plate st' t' = get_consensus_plate st t') /\
      (t = "" -> st' = ∅ /\ cleared = "all")
  | None => st' = ∅ /\ cleared = "all"
  end.
Proof.
  cbv zeta. unfold clear_temporal.
  assert (Hreq : (match data with
                  | Some d => if decide (d = ∅) then None else d !! "trackId"
                  | None => None end)
                 = match data with Some d => d !! "trackId" | None => None end).
  { destruct data as [d|]; [|done]. destruct (decide (d = ∅)) as [->|]; done. }
  rewrite Hreq. clear Hreq.
  destruct (match data with Some d => d !! "trackId" | None => None end) as [t|];
    cbn [clear_temporal_votes]; [|done].
  split; [done|]. split.
  - intros Ht. rewrite (proj2 (String.eqb_neq _ _) Ht).
    split; [done|split; [done|split]].
    + unfold get_consensus_plate, votes_of. by rewrite lookup_delete_eq.
    + intros t' Ht'. unfold get_consensus_plate, votes_of. by rewrite lookup_delete_ne.
  - intros ->. done.
Qed.

(** *** The [/ocr/plate-gemini] endpoint *)

(** [/ocr/plate-gemini] never changes a vote buffer, and the only
    exception that can leave it is the failed import of the Gemini client
    library: every other failure (no image, undecodable data, Gemini
    raising) is answered with a body. *)
Theorem gemini_endpoint_no_votes (E : env) (ask : image -> option string)
    (data : request) (w : world) :
  match read_plate_with_gemini E ask data w with
  | (w', inr _) => w_votes w' = w_votes w
  | (w', inl e) => e = ImportError /\ genai_installed E = false /\ w' = w
  end.
Proof.
  unfold read_plate_with_gemini, try_except, throw, ret.
  destruct (genai_installed E); cbn [negb]; [|done].
  destruct (String.eqb (req_image data) ""); [done|].
  destruct (gemini_api_key E); cbn [negb]; [|done].
  destruct (decode E (strip_data_url (req_image data))) as [img|]; [|done].
  unfold bind, log_call. cbn [w_votes].
  destruct (ask img) as [raw|]; [|done].
  repeat match goal with |- context [if ?b then _ else _] => destruct b end; done.
Qed.

(** With the client library importable, [/ocr/plate-gemini] answers an
    empty image with an error body (the [HTTPException(400)] is caught and
    returned inside a 200 body), and, when no API key is set, answers
    "GEMINI_API_KEY not set" before decoding the image and without calling
    Gemini. *)
Theorem gemini_endpoint_checks_first (E : env) (ask : image -> option string)
    (data : request) (w : world) :
  genai_installed E = true ->
  (req_image data = "" ->
     read_plate_with_gemini E ask data w = (w, inr (GemError (HTTPException 400)))) /\
  (req_image data <> "" -> gemini_api_key E = false ->
     read_plate_with_gemini E ask data w = (w, inr GemKeyMissing)).
Proof.
  intros Hg. unfold read_plate_with_gemini, try_except, throw, ret. rewrite Hg. cbn [negb].
  split.
  - intros ->. done.
  - intros Hi Hk. rewrite (proj2 (String.eqb_neq _ _) Hi), Hk. done.
Qed.

(** [/ocr/plate-gemini] accepts Gemini's cleaned answer on its length
    alone (at least 6 letters or digits, other than "NONE"), without the
    score check of [/ocr/plate-base64]; otherwise it reports no plate with
    the raw (stripped, upper-cased) answer. Gemini is called once. *)
Theorem gemini_endpoint_no_score_check (E : env) (ask : image -> option string)
    (data : request) (w : world) (img : image) (raw : string) :
  genai_installed E = true -> req_image data <> "" -> gemini_api_key E = true ->
  decode E (strip_data_url (req_image data)) = Some img -> ask img = Some raw ->
  let p := gemini_cleaned raw in
  fst (read_plate_with_gemini E ask data w) =
    {| w_votes := w_votes w; w_calls := w_calls w ++ [CallGemini] |} /\
  ((6 <= String.length p)%nat -> p <> "NONE" ->
     snd (read_plate_with_gemini E ask data w) = inr (GemPlate (req_trackId data) p)) /\
  ((String.length p < 6)%nat \/ p = "NONE" ->
     snd (read_plate_with_gemini E ask data w)
     = inr (GemNoPlate (req_trackId data) (upper (strip raw)))).
Proof.
  intros Hg Hi Hk Hd Ha. cbv zeta.
  unfold read_plate_with_gemini, try_except, throw, ret, bind, log_call.
  rewrite Hg, (proj2 (String.eqb_neq _ _) Hi), Hk, Hd. cbn [negb w_votes w_calls].
  rewrite Ha. fold (gemini_cleaned raw). split; [|split].
  - repeat match goal with |- context [if ?b then _ else _] => destruct b end; done.
  - intros Hl Hn.
    rewrite (proj2 (String.eqb_neq _ _) Hn).
    destruct (String.eqb_spec (gemini_cleaned raw) "") as [He|]; [rewrite He in Hl; cbn in Hl; lia|].
    rewrite (proj2 (Nat.leb_le _ _) Hl). done.
  - intros [Hl| ->].
    + destruct (6 <=? String.length (gemini_cleaned raw))%nat eqn:H6.
      * apply Nat.leb_le in H6. lia.
      * by rewrite andb_false_r.
    + done.
Qed.

(** *** [utils/plate_detector.py] *)

Section Detector.
Import PlateDetector.

Lemma qlt_spec (a b : Q) : qlt a b = true <-> (a < b)%Q.
Proof.
  unfold qlt. rewrite negb_true_iff. split.
  - intros H. apply Qnot_le_lt. intros Hc. apply Qle_bool_iff in Hc. congruence.
  - intros H. destruct (Qle_bool b a) eqn:E; [|done].
    apply Qle_bool_iff in E. exfalso. by apply (Qlt_not_le a b).
Qed.

Lemma box_score_range (h w : Z) (b : det_box) :
  (bconf b <= box_score h w b <= bconf b + (3 # 5))%Q.
Proof.
  unfold box_score. cbv zeta.
  destruct (qlt 2 _ && qlt _ 6), (ratio_between (4 # 10) (9 # 10) _ _),
           (ratio_between (1 # 100) (3 # 10) _ _);
    split; unfold Qle, Qplus; cbn; destruct (bconf b) as [n d]; cbn; nia.
Qed.

Lemma best_box_inv_step h w threshold P acc b :
  best_box_inv h w threshold P acc ->
  best_box_inv h w threshold (P ++ [b]) (box_step h w threshold acc b).
Proof.
  destruct acc as [bb s]. intros [Hmax Hacc].
  assert (Hs : (0 <= s)%Q).
  { destruct bb; [destruct Hacc as (? & _ & _ & _ & _ & Hp); by apply Qlt_le_weak|].
    rewrite Hacc. apply Qle_refl. }
  unfold box_step.
  destruct (qlt s (box_score h w b)) eqn:Hq; destruct (Qle_bool threshold (bconf b)) eqn:Ht;
    cbn [andb].
  - apply qlt_spec in Hq. apply Qle_bool_iff in Ht. split.
    + intros b' Hb' Hc. apply in_app_or in Hb' as [Hb'|[<-|[]]]; cbn [snd].
      * apply Qlt_le_weak. apply (Qle_lt_trans _ s); [by apply Hmax|done].
      * apply Qle_refl.
    + exists b. repeat split; auto using in_or_app, in_eq.
      by apply (Qle_lt_trans _ s).
  - split; [|destruct bb; [destruct Hacc as (b0 & ? & ?); exists b0; auto using in_or_app|done]].
    intros b' Hb' Hc. apply in_app_or in Hb' as [Hb'|[<-|[]]]; [by apply Hmax|].
    apply Qle_bool_iff in Hc. congruence.
  - split; [|destruct bb; [destruct Hacc as (b0 & ? & ?); exists b0; auto using in_or_app|done]].
    intros b' Hb' Hc. apply in_app_or in Hb' as [Hb'|[<-|[]]]; [by apply Hmax|].
    cbn [snd]. apply Qnot_lt_le. intros Hl. apply qlt_spec in Hl. congruence.
  - split; [|destruct bb; [destruct Hacc as (b0 & ? & ?); exists b0; auto using in_or_app|done]].
    intros b' Hb' Hc. apply in_app_or in Hb' as [Hb'|[<-|[]]]; [by apply Hmax|].
    cbn [snd]. apply Qnot_lt_le. intros Hl. apply qlt_spec in Hl. congruence.
Qed.

Lemma best_box_spec h w threshold boxes :
  best_box_inv h w threshold boxes (best_box h w threshold boxes).
Proof.
  unfold best_box.
  assert (H : forall l P acc, best_box_inv h w threshold P acc ->
            best_box_inv h w threshold (P ++ l) (fold_left (box_step h w threshold) l acc)).
  { induction l as [|b l IH]; intros P acc Hacc; cbn; [by rewrite app_nil_r|].
    replace (P ++ b :: l) with ((P ++ [b]) ++ l) by (by rewrite <- app_assoc).
    apply IH. by apply best_box_inv_step. }
  apply (H boxes []). split; [intros ? []|done].
Qed.

End Detector.

(** [detect_plate_region] always reports [found = True] (it never returns
    the [{'found': False}] its docstring mentions): its result is either
    the heuristic region, or a YOLO box of the first result whose
    confidence reaches the threshold, reported with its plate-likeness
    score, which lies between the box's confidence and that confidence
    plus 0.6, is positive, and is the largest score among the boxes that
    reach the threshold. *)
Theorem detect_plate_region_choice (D : PlateDetector.detector) (img : image) (threshold : Q) :
  let d := PlateDetector.detect_plate_region D img threshold in
  PlateDetector.d_found d = true /\
  (d = PlateDetector._heuristic_plate_region img \/
   (PlateDetector.d_method d = "yolo" /\ PlateDetector.model_loaded D = true /\
    exists boxes rest b,
      PlateDetector.infer D img = Some (boxes :: rest) /\ In b boxes /\
      (threshold <= PlateDetector.bconf b)%Q /\
      PlateDetector.d_bbox d = (PlateDetector.bx1 b, PlateDetector.by1 b,
                                PlateDetector.bx2 b - PlateDetector.bx1 b,
                                PlateDetector.by2 b - PlateDetector.by1 b)%Q /\
      PlateDetector.d_confidence d = PlateDetector.box_score (img_h img) (img_w img) b /\
      (PlateDetector.bconf b <= PlateDetector.d_confidence d
                             <= PlateDetector.bconf b + (3 # 5))%Q /\
      (0 < PlateDetector.d_confidence d)%Q /\
      (forall b', In b' boxes -> (threshold <= PlateDetector.bconf b')%Q ->
         (PlateDetector.box_score (img_h img) (img_w img) b'
          <= PlateDetector.d_confidence d)%Q))).
Proof.
  cbv zeta. unfold PlateDetector.detect_plate_region.
  destruct (PlateDetector.model_loaded D) eqn:Hm; cbn [negb]; [|split; [done|by left]].
  destruct (PlateDetector.infer D img) as [[|[|b0 bs] rest]|] eqn:Hi;
    try (split; [done|by left]).
  pose proof (best_box_spec (img_h img) (img_w img) threshold (b0 :: bs)) as [Hmax Hacc].
  destruct (PlateDetector.best_box _ _ _ (b0 :: bs)) as [[bb|] s]; [|split; [done|by left]].
  destruct Hacc as (b & Hb & Ht & -> & -> & Hp).
  split; [done|right]. cbn [PlateDetector.d_method PlateDetector.d_bbox
                            PlateDetector.d_confidence].
  split; [done|split; [done|]].
  exists (b0 :: bs), rest, b. repeat split; auto; apply box_score_range.
Qed.

(** With a positive threshold (the default is 0.3), [detect_plate_region]
    uses YOLO exactly when the model loaded, inference succeeded and a
    box of the first result has a confidence reaching the threshold;
    otherwise it returns the heuristic region. *)
Theorem detect_plate_region_uses_yolo (D : PlateDetector.detector) (img : image)
    (threshold : Q) (boxes : list PlateDetector.det_box) rest :
  (0 < threshold)%Q -> PlateDetector.model_loaded D = true ->
  PlateDetector.infer D img = Some (boxes :: rest) ->
  ((exists b, In b boxes /\ (threshold <= PlateDetector.bconf b)%Q) ->
     PlateDetector.d_method (PlateDetector.detect_plate_region D img threshold) = "yolo") /\
  ((forall b, In b boxes -> (PlateDetector.bconf b < threshold)%Q) ->
     PlateDetector.detect_plate_region D img threshold = PlateDetector._heuristic_plate_region img).
Proof.
  intros Hpos Hm Hi. unfold PlateDetector.detect_plate_region. rewrite Hm, Hi. cbn [negb].
  pose proof (best_box_spec (img_h img) (img_w img) threshold boxes) as [Hmax Hacc].
  split.
  - intros (b & Hb & Ht).
    destruct boxes as [|b0 bs]; [done|].
    destruct (PlateDetector.best_box _ _ _ _) as [[bb|] s]; [done|].
    exfalso. subst s. specialize (Hmax b Hb Ht). cbn [snd] in Hmax.
    pose proof (box_score_range (img_h img) (img_w img) b) as [Hlo _].
    apply (Qlt_irrefl 0). apply (Qlt_le_trans _ threshold); [done|].
    apply (Qle_trans _ _ _ Ht), (Qle_trans _ _ _ Hlo), Hmax.
  - intros Hno. destruct boxes as [|b0 bs]; [done|].
    destruct (PlateDetector.best_box _ _ _ _) as [[bb|] s]; [|done].
    destruct Hacc as (b & Hb & Ht & _). exfalso.
    apply (Qlt_not_le _ _ (Hno b Hb) Ht).
Qed.

Lemma py_int_le (q : Q) : (0 <= q)%Q -> (inject_Z (py_int q) <= q)%Q.
Proof.
  destruct q as [n d]. unfold py_int, Qle. cbn. intros H.
  rewrite Z.quot_div_nonneg by lia.
  pose proof (Z.mul_div_le n (Z.pos d) ltac:(lia)). lia.
Qed.

Lemma py_int_mono (a b : Q) : (0 <= a)%Q -> (a <= b)%Q -> (py_int a <= py_int b)%Z.
Proof.
  destruct a as [n1 d1], b as [n2 d2]. unfold py_int, Qle. cbn. intros H1 H2.
  rewrite !Z.quot_div_nonneg by nia.
  apply Z.div_le_lower_bound; [lia|].
  pose proof (Z.mul_div_le n1 (Z.pos d1) ltac:(lia)).
  assert (Z.pos d1 * (Z.pos d2 * (n1 / Z.pos d1)) <= Z.pos d1 * n2)%Z by nia.
  nia.
Qed.

Lemma py_int_inject (z : Z) : py_int (inject_Z z) = z.
Proof. unfold py_int. cbn. apply Z.quot_1_r. Qed.

Lemma py_int_below (q : Q) (z : Z) : (0 <= q)%Q -> (q <= inject_Z z)%Q -> (py_int q <= z)%Z.
Proof. intros H0 H1. rewrite <- (py_int_inject z). by apply py_int_mono. Qed.

Lemma crop_bounds_ok (img : image) (x y bw bh padding : Q) :
  (0 <= img_w img)%Z -> (0 <= img_h img)%Z ->
  (0 <= x <= inject_Z (img_w img))%Q -> (0 <= y <= inject_Z (img_h img))%Q ->
  (0 <= bw)%Q -> (0 <= bh)%Q -> (0 <= padding)%Q ->
  let b := PlateDetector.crop_bounds img (x, y, bw, bh) padding in
  (0 <= x1 b <= x2 b)%Z /\ (x2 b <= img_w img)%Z /\
  (0 <= y1 b <= y2 b)%Z /\ (y2 b <= img_h img)%Z /\
  (forall i j, PlateDetector.crop_plate_region img (x, y, bw, bh) padding i j <->
               (y1 b <= i < y2 b)%Z /\ (x1 b <= j < x2 b)%Z).
Proof.
  intros Hw Hh [Hx0 Hxw] [Hy0 Hyh] Hbw Hbh Hp. cbv zeta.
  assert (Hpx := py_int_nonneg (bw * padding) (Qmult_le_0_compat _ _ Hbw Hp)).
  assert (Hpy := py_int_nonneg (bh * padding) (Qmult_le_0_compat _ _ Hbh Hp)).
  assert (Hx := py_int_below x (img_w img) Hx0 Hxw).
  assert (Hy := py_int_below y (img_h img) Hy0 Hyh).
  assert (Hxm : (py_int x <= py_int (x + bw))%Z).
  { apply py_int_mono; [done|]. rewrite <- (Qplus_0_r x) at 1. by apply Qplus_le_compat; [apply Qle_refl|]. }
  assert (Hym : (py_int y <= py_int (y + bh))%Z).
  { apply py_int_mono; [done|]. rewrite <- (Qplus_0_r y) at 1. by apply Qplus_le_compat; [apply Qle_refl|]. }
  assert (Hx0' := py_int_nonneg x Hx0). assert (Hy0' := py_int_nonneg y Hy0).
  unfold PlateDetector.crop_bounds. cbn [x1 x2 y1 y2].
  split; [lia|split; [lia|split; [lia|split; [lia|]]]].
  intros i j. unfold PlateDetector.crop_plate_region, in_slice. cbn [x1 x2 y1 y2].
  unfold PlateDetector.crop_bounds. cbn [x1 x2 y1 y2].
  rewrite !slice_norm_in by lia. lia.
Qed.

(** The heuristic region of [plate_detector.py] (x at 20% of the width,
    y at 50% of the height, 60% x 40% in size) lies inside the image, and
    its crop with the default padding 0.1 is an in-bounds rectangle:
    [0 <= x1 <= x2 <= w], [0 <= y1 <= y2 <= h], read by numpy as is. *)
Theorem heuristic_region_inside (img : image) :
  (0 <= img_w img)%Z -> (0 <= img_h img)%Z ->
  let d := PlateDetector._heuristic_plate_region img in
  let '(x, y, bw, bh) := PlateDetector.d_bbox d in
  (0 <= x)%Q /\ (x + bw <= inject_Z (img_w img))%Q /\ (0 <= bw)%Q /\
  (0 <= y)%Q /\ (y + bh <= inject_Z (img_h img))%Q /\ (0 <= bh)%Q /\
  let b := PlateDetector.crop_bounds img (x, y, bw, bh) (1 # 10) in
  (0 <= x1 b <= x2 b)%Z /\ (x2 b <= img_w img)%Z /\
  (0 <= y1 b <= y2 b)%Z /\ (y2 b <= img_h img)%Z /\
  (forall i j, PlateDetector.crop_plate_region img (x, y, bw, bh) (1 # 10) i j <->
               (y1 b <= i < y2 b)%Z /\ (x1 b <= j < x2 b)%Z).
Proof.
  intros Hw Hh. cbv zeta. unfold PlateDetector._heuristic_plate_region.
  cbn [PlateDetector.d_bbox].
  assert (Hq : forall (v : Z) (k : Z), (0 <= v)%Z -> (0 <= k <= 10)%Z ->
            (0 <= py_int (inject_Z v * (k # 10)) <= v * k / 10)%Z).
  { intros v k Hv Hk. unfold py_int. cbn. rewrite Z.quot_div_nonneg by lia. split.
    - apply Z.div_pos; lia.
    - apply Z.div_le_mono; lia. }
  set (px := py_int (inject_Z (img_w img) * (2 # 10))).
  set (py := py_int (inject_Z (img_h img) * (5 # 10))).
  set (pw := py_int (inject_Z (img_w img) * (6 # 10))).
  set (ph := py_int (inject_Z (img_h img) * (4 # 10))).
  destruct (Hq (img_w img) 2%Z Hw ltac:(lia)) as [Hpx0 Hpx1].
  destruct (Hq (img_h img) 5%Z Hh ltac:(lia)) as [Hpy0 Hpy1].
  destruct (Hq (img_w img) 6%Z Hw ltac:(lia)) as [Hpw0 Hpw1].
  destruct (Hq (img_h img) 4%Z Hh ltac:(lia)) as [Hph0 Hph1].
  fold px py pw ph in Hpx0, Hpx1, Hpy0, Hpy1, Hpw0, Hpw1, Hph0, Hph1.
  assert (Hsx : (px + pw <= img_w img)%Z).
  { assert (img_w img * 2 / 10 + img_w img * 6 / 10 <= img_w img)%Z.
    { Z.to_euclidean_division_equations. lia. }
    lia. }
  assert (Hsy : (py + ph <= img_h img)%Z).
  { assert (img_h img * 5 / 10 + img_h img * 4 / 10 <= img_h img)%Z.
    { Z.to_euclidean_division_equations. lia. }
    lia. }
  assert (HQ : forall a b : Z, (a <= b)%Z -> (inject_Z a <= inject_Z b)%Q)
    by (intros a b H; rewrite <- Zle_Qle; exact H).
  assert (HQ0 : forall a : Z, (0 <= a)%Z -> (0 <= inject_Z a)%Q)
    by (intros a Ha; change 0%Q with (inject_Z 0); by apply HQ).
  rewrite <- !inject_Z_plus.
  destruct (crop_bounds_ok img (inject_Z px) (inject_Z py) (inject_Z pw) (inject_Z ph) (1 # 10)
              Hw Hh ltac:(split; [apply HQ0|apply HQ]; lia)
              ltac:(split; [apply HQ0|apply HQ]; lia)
              ltac:(apply HQ0; lia) ltac:(apply HQ0; lia) ltac:(discriminate))
    as (Hbx & Hbx' & Hby & Hby' & Hcrop); cbv zeta in *.
  repeat (split; [first [apply HQ0; lia | apply HQ; lia] |]).
  split; [lia|]. split; [lia|]. split; [lia|]. split; [lia|]. exact Hcrop.
Qed.

Lemma votes_of_add (st : votes_store) (tid p : string) :
  p <> "" -> votes_of (add_temporal_vote st tid p) tid = last_n TEMPORAL_WINDOW (votes_of st tid ++ [p]).
Proof. intros Hp. unfold votes_of at 1. by rewrite add_vote_lookup. Qed.

Lemma consensus_one (st : votes_store) (tid p : string) :
  votes_of st tid = [p] -> get_consensus_plate st tid = (Some p, ((inject_Z 1 / inject_Z 1) * 100)%Q).
Proof. intros H. unfold get_consensus_plate. by rewrite H. Qed.

Lemma consensus_two (st : votes_store) (tid p : string) :
  votes_of st tid = [p; p] -> get_consensus_plate st tid = (Some p, ((inject_Z 2 / inject_Z 2) * 100)%Q).
Proof.
  intros H. unfold get_consensus_plate. rewrite H. cbn. by rewrite String.eqb_refl.
Qed.

(** On the first frame of a track (empty vote buffer, temporal voting on,
    not "manual-scan"), a 200 answer that has a non-empty single-frame plate
    reports that same plate with consensusVotes 100 and confidence 100,
    whatever the engine's own confidence was; with no single-frame plate it
    reports no plate, success false and consensusVotes 0. *)
Theorem first_frame_full_consensus (E : env) (data : request) (w : world) :
  req_useTemporal data = true -> req_trackId data <> MANUAL_SCAN ->
  votes_of (w_votes w) (req_trackId data) = [] ->
  match read_plate_from_base64 E data w with
  | (w', Ok200 b) =>
      match instantPlate b with
      | Some p => p <> "" ->
          plate b = Some p /\ success b = true /\ (consensusVotes b == 100)%Q /\
          confidence b = 100%Z
      | None => plate b = None /\ success b = false /\ consensusVotes b = 0%Q
      end
  | (_, HttpError _) => True
  end.
Proof.
  intros Ht Hm H0.
  destruct (endpoint_cases E data w) as [-> | (img & Hg & Hi & Hd)]; [done|].
  destruct (endpoint_decoded E data w img Hg Hi Hd) as [res Hres]. cbv zeta in Hres.
  rewrite Hres. clear Hres. cbn [plate success consensusVotes confidence instantPlate].
  rewrite Ht, (proj2 (String.eqb_neq _ _) Hm). cbn [andb negb].
  set (g := if gemini_api_key E then gemini_outcome E img else (None, 0%Z, "none")).
  destruct (truthy (fst (fst g))) eqn:Htr.
  - destruct g as [[o c] e]. cbn [fst snd] in *. destruct o as [p|]; [|discriminate].
    intros Hp. rewrite votes_after_some by done.
    rewrite (consensus_one _ _ p) by (rewrite votes_of_add, H0 by done; reflexivity).
    cbn. destruct (Qle_bool _ _); rewrite (proj2 (String.eqb_neq _ _) Hp); cbn [negb];
      repeat split; vm_compute; reflexivity.
  - cbn [fst snd]. destruct (r_plate res) as [p|].
    + intros Hp. rewrite !votes_after_some by done.
      rewrite (consensus_two _ _ p)
        by (rewrite !votes_of_add, H0 by done; reflexivity).
      cbn. destruct (Qle_bool _ _); rewrite (proj2 (String.eqb_neq _ _) Hp); cbn [negb];
        repeat split; vm_compute; reflexivity.
    + cbn [votes_after]. unfold get_consensus_plate. rewrite H0. cbn. auto.
Qed.

(** [String.prefix s1 s2] means [s2] starts with [s1]. *)
Lemma prefix_app (s1 s2 : string) : String.prefix s1 s2 = true -> exists r, s2 = (s1 ++ r)%string.
Proof.
  revert s2. induction s1 as [|a s1 IH]; intros s2 H; [by exists s2|].
  destruct s2 as [|b s2]; [discriminate|]. cbn in H.
  destruct (Ascii.ascii_dec a b) as [<-|]; [|discriminate].
  destruct (IH s2 H) as [r ->]. by exists r.
Qed.

Lemma prefix_app_self (s r : string) : String.prefix s (s ++ r) = true.
Proof.
  induction s as [|a s IH]; [by destruct r|]. simpl. destruct (Ascii.ascii_dec a a); [exact IH|congruence].
Qed.

Lemma substring_long (q : string) (m : nat) : (String.length q <= m)%nat -> substring 0 m q = q.
Proof.
  revert m. induction q as [|a q IH]; intros m Hm; [by destruct m|].
  destruct m as [|m]; cbn in Hm; [lia|]. simpl. rewrite IH; [done|lia].
Qed.

Lemma substring_app (s r : string) (m : nat) :
  (String.length r <= m)%nat -> substring (String.length s) m (s ++ r) = r.
Proof.
  intros Hm. induction s as [|a s IH]; [by apply substring_long|]. simpl. exact IH.
Qed.

Lemma no_comma_cons (c : ascii) (s : string) :
  no_comma (String c s) = negb (Ascii.eqb c ",") && no_comma s.
Proof. reflexivity. Qed.

Lemma b64_not_prefix_no_comma (s : string) : no_comma s = true -> String.prefix "base64," s = false.
Proof.
  intros Hs. destruct (String.prefix "base64," s) eqn:H; [|done].
  destruct (prefix_app _ _ H) as [r ->]. cbn in Hs. discriminate.
Qed.

Lemma before_first_no_comma (s : string) : no_comma s = true -> before_first "base64," s = s.
Proof.
  induction s as [|c s IH]; intros Hs; [done|].
  cbn [before_first]. rewrite b64_not_prefix_no_comma by done.
  rewrite no_comma_cons in Hs. apply andb_prop in Hs as [_ Hs]. by rewrite IH.
Qed.

Lemma after_first_no_comma (s : string) : no_comma s = true -> after_first "base64," s = None.
Proof.
  induction s as [|c s IH]; intros Hs; [done|].
  cbn [after_first]. rewrite b64_not_prefix_no_comma by done.
  rewrite no_comma_cons in Hs. apply andb_prop in Hs as [_ Hs]. by apply IH.
Qed.

Lemma after_first_cons (sep : string) (c : ascii) (s : string) :
  after_first sep (String c s) =
  if String.prefix sep (String c s)
  then Some (substring (String.length sep) (String.length (String c s)) (String c s))
  else after_first sep s.
Proof. reflexivity. Qed.

Lemma after_first_header (p q : string) :
  no_comma p = true -> after_first "base64," (p ++ "base64," ++ q) = Some q.
Proof.
  induction p as [|c p IH]; intros Hp.
  - assert (H := prefix_app_self "base64," q). simpl in H |- *. rewrite H.
    f_equal. change ("" ++ q)%string with q. apply substring_long. lia.
  - change (String c p ++ "base64," ++ q)%string with (String c (p ++ "base64," ++ q))%string.
    rewrite after_first_cons.
    destruct (String.prefix "base64," (String c (p ++ "base64," ++ q))) eqn:Hpre.
    + exfalso. destruct (prefix_app _ _ Hpre) as [r Hr].
      destruct p as [|c2 [|c3 [|c4 [|c5 [|c6 [|c7 p]]]]]]; cbn in Hr;
        try discriminate.
      injection Hr as -> -> -> -> -> -> -> _. cbn in Hp.
      discriminate.
    + rewrite no_comma_cons in Hp. apply andb_prop in Hp as [_ Hp]. by apply IH.
Qed.

(** [read_plate_from_base64]'s prefix removal: a data URL whose header has
    no comma, followed by "base64," and a payload with no comma (as base64
    text is), is reduced to the payload; a payload sent without the header
    is used as it is. *)
Theorem strip_data_url_payload (header payload : string) :
  no_comma header = true -> no_comma payload = true ->
  strip_data_url (header ++ "base64," ++ payload) = payload /\
  strip_data_url payload = payload.
Proof.
  intros Hh Hp. unfold strip_data_url. split.
  - rewrite after_first_header by done. by apply before_first_no_comma.
  - by rewrite after_first_no_comma.
Qed.

(** [plate_detector.crop_plate_region] on a box whose corner lies in the
    image, with non-negative size and padding: the slice bounds satisfy
    [0 <= x1 <= x2 <= w] and [0 <= y1 <= y2 <= h], so numpy returns exactly
    the rectangle [y1 <= i < y2], [x1 <= j < x2] (no negative index wraps). *)
Theorem detector_crop_in_bounds (img : image) (x y bw bh padding : Q) :
  (0 <= img_w img)%Z -> (0 <= img_h img)%Z ->
  (0 <= x <= inject_Z (img_w img))%Q -> (0 <= y <= inject_Z (img_h img))%Q ->
  (0 <= bw)%Q -> (0 <= bh)%Q -> (0 <= padding)%Q ->
  let b := PlateDetector.crop_bounds img (x, y, bw, bh) padding in
  (0 <= x1 b <= x2 b)%Z /\ (x2 b <= img_w img)%Z /\
  (0 <= y1 b <= y2 b)%Z /\ (y2 b <= img_h img)%Z /\
  (forall i j, PlateDetector.crop_plate_region img (x, y, bw, bh) padding i j <->
               (y1 b <= i < y2 b)%Z /\ (x1 b <= j < x2 b)%Z).
Proof. exact (crop_bounds_ok img x y bw bh padding). Qed.

(** *** Witnesses of the further properties *)

Lemma indian_plate_shape_witness :
  is_indian_plate "mh 12-ab 4567" = true /\
  exists a b rest, normalize "mh 12-ab 4567" = String a (String b rest) /\
    is_upper a = true /\ is_upper b = true /\ str_any isdigit (normalize "mh 12-ab 4567") = true.
Proof. split; [reflexivity|]. apply indian_plate_shape. reflexivity. Defined.

Lemma fallback_confidences :
  forall t rs, readtext fallback_env sample_img t = Some rs ->
               Forall (fun fr => (0 <= snd fr <= 1)%Q) rs.
Proof.
  intros [b|] rs H; cbn in H; injection H as <-; repeat constructor;
    apply Qle_bool_iff; reflexivity.
Qed.

Lemma two_stage_plate_shape_witness :
  match run_two_stage_ocr fallback_env sample_img "car-1" empty_world with
  | (w', inr res) =>
      match r_plate res with
      | Some p =>
          forallb (fun c => isalnum c && negb (is_lower c)) (list_ascii_of_string p) = true /\
          (6 <= String.length p)%nat /\ (0 <= r_conf res <= 100)%Z /\
          w_votes w' = votes_after (w_votes empty_world) "car-1" (Some p)
      | None => r_conf res = 0%Z /\ w_votes w' = w_votes empty_world
      end
  | (_, inl _) => False
  end.
Proof.
  apply (two_stage_plate_shape fallback_env sample_img "car-1" empty_world).
  intros [b|] rs H; cbn in H; injection H as <-; repeat constructor;
    apply Qle_bool_iff; reflexivity.
Defined.

Lemma upload_votes_file_upload_witness :
  exists b,
    read_license_plate fallback_env (fun _ => Some sample_img) "image/jpeg" "JFIF" empty_world =
      ({| w_votes := match u_plate b with
                     | Some p => add_temporal_vote (w_votes empty_world) "file-upload" p
                     | None => w_votes empty_world
                     end;
          w_calls := w_calls empty_world ++ easyocr_calls fallback_env sample_img |}, inr b) /\
    u_plate b = r_plate (two_stage_result fallback_env sample_img) /\
    u_success b = match u_plate b with Some _ => true | None => false end.
Proof.
  apply (upload_votes_file_upload fallback_env (fun _ => Some sample_img) "image/jpeg" "JFIF"
           empty_world sample_img); reflexivity.
Defined.

Lemma upload_rejected_witness :
  read_license_plate fallback_env (fun _ => Some sample_img) "text/plain" "GIF89a" empty_world
  = (empty_world, inl (HTTPException 500)).
Proof. apply upload_rejected. left. reflexivity. Defined.

Lemma gemini_endpoint_checks_first_witness :
  read_plate_with_gemini fallback_env (fun _ => Some "NONE") request_without_image empty_world
  = (empty_world, inr (GemError (HTTPException 400))).
Proof.
  apply (proj1 (gemini_endpoint_checks_first fallback_env (fun _ => Some "NONE")
                  request_without_image empty_world eq_refl)).
  reflexivity.
Defined.

Lemma gemini_endpoint_no_score_check_witness :
  score_plate_candidate "BATTERY" = (-85)%Z /\
  snd (read_plate_with_gemini fallback_env (fun _ => Some "battery") sample_request empty_world)
  = inr (GemPlate "car-1" "BATTERY").
Proof.
  split; [reflexivity|].
  apply (proj1 (proj2 (gemini_endpoint_no_score_check fallback_env (fun _ => Some "battery")
                         sample_request empty_world sample_img "battery"
                         eq_refl ltac:(discriminate) eq_refl eq_refl eq_refl)));
    vm_compute; [lia|discriminate].
Defined.

Lemma detect_plate_region_uses_yolo_witness :
  PlateDetector.d_method (PlateDetector.detect_plate_region sample_detector sample_img (3 # 10))
  = "yolo".
Proof.
  apply (proj1 (detect_plate_region_uses_yolo sample_detector sample_img (3 # 10)
                  [PlateDetector.DetBox 10 50 110 80 (9 # 10)] []
                  ltac:(reflexivity) eq_refl eq_refl)).
  exists (PlateDetector.DetBox 10 50 110 80 (9 # 10)). split; [by left|].
  apply Qle_bool_iff. reflexivity.
Defined.

Lemma detector_crop_in_bounds_witness :
  let b := PlateDetector.crop_bounds sample_img (10, 50, 100, 30)%Q (1 # 10) in
  (0 <= x1 b <= x2 b)%Z /\ (x2 b <= img_w sample_img)%Z /\
  (0 <= y1 b <= y2 b)%Z /\ (y2 b <= img_h sample_img)%Z /\
  (forall i j, PlateDetector.crop_plate_region sample_img (10, 50, 100, 30)%Q (1 # 10) i j <->
               (y1 b <= i < y2 b)%Z /\ (x1 b <= j < x2 b)%Z).
Proof.
  apply detector_crop_in_bounds; cbn; try lia;
    try split; apply Qle_bool_iff; reflexivity.
Defined.

Lemma heuristic_region_inside_witness :
  let d := PlateDetector._heuristic_plate_region sample_img in
  let '(x, y, bw, bh) := PlateDetector.d_bbox d in
  (0 <= x)%Q /\ (x + bw <= inject_Z (img_w sample_img))%Q /\ (0 <= bw)%Q /\
  (0 <= y)%Q /\ (y + bh <= inject_Z (img_h sample_img))%Q /\ (0 <= bh)%Q /\
  let b := PlateDetector.crop_bounds sample_img (x, y, bw, bh) (1 # 10) in
  (0 <= x1 b <= x2 b)%Z /\ (x2 b <= img_w sample_img)%Z /\
  (0 <= y1 b <= y2 b)%Z /\ (y2 b <= img_h sample_img)%Z /\
  (forall i j, PlateDetector.crop_plate_region sample_img (x, y, bw, bh) (1 # 10) i j <->
               (y1 b <= i < y2 b)%Z /\ (x1 b <= j < x2 b)%Z).
Proof. apply heuristic_region_inside; cbn; lia. Defined.

Lemma first_frame_full_consensus_witness :
  match read_plate_from_base64 fallback_env sample_request empty_world with
  | (w', Ok200 b) =>
      match instantPlate b with
      | Some p => p <> "" ->
          plate b = Some p /\ success b = true /\ (consensusVotes b == 100)%Q /\
          confidence b = 100%Z
      | None => plate b = None /\ success b = false /\ consensusVotes b = 0%Q
      end
  | (_, HttpError _) => True
  end.
Proof.
  apply first_frame_full_consensus; [reflexivity|discriminate|reflexivity].
Defined.

Lemma strip_data_url_payload_witness :
  strip_data_url ("data:image/jpeg;" ++ "base64," ++ "/9j/4AAQ") = "/9j/4AAQ" /\
  strip_data_url "/9j/4AAQ" = "/9j/4AAQ".
Proof. apply strip_data_url_payload; reflexivity. Defined.
